(** * tmuxp.server: the in-memory mirror of a tmux server

    A shallow embedding of [src/tmuxp/server.py] (class [Server]) and the
    properties of its refresh and session-lifecycle operations.

    Python objects that are shared and mutated in place (the collections
    [_sessions], [_windows], [_panes], [_clients] and the record dicts they
    hold) live in an explicit object store; every method is a computation in
    a state-and-exception monad over that store, the process environment and
    the log of [tmux] invocations. *)

From Stdlib Require Import Ascii.
From stdpp Require Import gmap strings list fin_maps.

(** ** Python strings *)

(** The delimiter ['\t']. *)
Definition tab : ascii := "009"%char.
Definition TAB : string := String tab "".

(** [s.split(sep)] for a one-character separator: every occurrence of the
    separator ends a token, so the result has one more token than the string
    has separators (and [''.split(sep) == ['']]). *)
Fixpoint split (sep : ascii) (s : string) : list string :=
  match s with
  | EmptyString => [EmptyString]
  | String c s' =>
      if decide (c = sep) then EmptyString :: split sep s'
      else match split sep s' with
           | [] => [String c EmptyString]
           | t :: ts => String c t :: ts
           end
  end.

(** The character [c] occurs in [s]. *)
Fixpoint has_char (c : ascii) (s : string) : Prop :=
  match s with
  | EmptyString => False
  | String a s' => a = c ∨ has_char c s'
  end.

(** [sep.join(l)]. *)
Fixpoint join (sep : string) (l : list string) : string :=
  match l with
  | [] => ""
  | x :: xs =>
      match xs with
      | [] => x
      | _ :: _ => x +:+ sep +:+ join sep xs
      end
  end.

(** Truth value of a string: [if v] holds when [v] is not empty. *)
Definition truthy (s : string) : bool := bool_decide (s ≠ "").

(** Truth value of an attribute that is [None] or a string. *)
Definition opt_truthy (o : option string) : bool :=
  match o with
  | None => false
  | Some s => truthy s
  end.

Fixpoint is_prefix (p s : string) : bool :=
  match p with
  | EmptyString => true
  | String a p' =>
      match s with
      | EmptyString => false
      | String b s' => if decide (a = b) then is_prefix p' s' else false
      end
  end.

(** [m in s] on two strings: [m] occurs in [s] as a substring. *)
Fixpoint str_in (m s : string) : bool :=
  is_prefix m s ||
  match s with
  | EmptyString => false
  | String _ s' => str_in m s'
  end.

(** The value of [proc.stdout]. The gateway class [tmux] of [tmuxp.util]
    fixes its type; the methods of [Server] use it both as a sequence of
    lines (iteration, indexing) and as the right operand of [in], so both
    shapes a Python value can take there are kept. *)
Inductive pyval : Type :=
  | PStr (s : string)
  | PLines (l : list string).

(** Iterating a value: a list yields its elements, a string its
    characters (as one-character strings). *)
Fixpoint chars (s : string) : list string :=
  match s with
  | EmptyString => []
  | String c s' => String c EmptyString :: chars s'
  end.

Definition py_iter (v : pyval) : list string :=
  match v with
  | PStr s => chars s
  | PLines l => l
  end.

(** [m in v]: substring test on a string, membership test on a list. *)
Definition py_in (m : string) (v : pyval) : bool :=
  match v with
  | PStr s => str_in m s
  | PLines l => bool_decide (m ∈ l)
  end.

(** What [m in v] decides, stated without reference to the search. *)
Definition py_contains (v : pyval) (m : string) : Prop :=
  match v with
  | PStr s => ∃ pre post : string, s = pre +:+ m +:+ post
  | PLines l => m ∈ l
  end.

(** ** Python dicts of strings *)

(** [dict(pairs)]: a later pair overrides an earlier one with the same key. *)
Definition py_dict {K} `{Countable K} {V} (l : list (K * V)) : gmap K V :=
  foldl (λ m kv, <[kv.1 := kv.2]> m) ∅ l.

(** [dict((k, v) for k, v in d.iteritems() if v)]. *)
Definition drop_empty (d : gmap string string) : gmap string string :=
  filter (λ kv, kv.2 ≠ "") d.

(** The record of one output line (server.py, lines 99-105; the same two
    comprehensions are repeated at 159-165, 219-225, 260-266, 505-508). *)
Definition parse_line (fields : list string) (line : string)
  : gmap string string :=
  drop_empty (py_dict (zip fields (split tab line))).

Definition parse (lines : list string) (fields : list string)
  : list (gmap string string) :=
  map (parse_line fields) lines.

(** [set(d.items())]. *)
Definition items (d : gmap string string) : gset (string * string) :=
  map_to_set pair d.

(** [dict(set(n.items()) - set(o.items()))] (server.py, line 281). *)
Definition dict_diff (n o : gmap string string) : gmap string string :=
  set_to_map id (items n ∖ items o).

(** [d.update(p)]: the pairs of [p] override those of [d]. *)
Definition dict_update (d p : gmap string string) : gmap string string :=
  p ∪ d.

(** The symmetric difference of two sets of (attribute, value) pairs. *)
Definition sym_diff (a b : gset (string * string)) : gset (string * string) :=
  (a ∖ b) ∪ (b ∖ a).

(** ** The object store *)

Definition loc := positive.

Record heap : Type := Heap {
  h_dicts : gmap loc (gmap string string);
  h_lists : gmap loc (list loc)
}.

Definition dict_at (h : heap) (l : loc) : gmap string string :=
  default ∅ (h_dicts h !! l).

Definition list_at (h : heap) (l : loc) : list loc :=
  default [] (h_lists h !! l).

Definition new_dict (d : gmap string string) (h : heap) : loc * heap :=
  let l := fresh (dom (h_dicts h)) in
  (l, Heap (<[l := d]> (h_dicts h)) (h_lists h)).

Definition new_list (v : list loc) (h : heap) : loc * heap :=
  let l := fresh (dom (h_lists h)) in
  (l, Heap (h_dicts h) (<[l := v]> (h_lists h))).

Definition set_dict (l : loc) (d : gmap string string) (h : heap) : heap :=
  Heap (<[l := d]> (h_dicts h)) (h_lists h).

Definition set_list (l : loc) (v : list loc) (h : heap) : heap :=
  Heap (h_dicts h) (<[l := v]> (h_lists h)).

Fixpoint new_dicts (ds : list (gmap string string)) (h : heap)
  : list loc * heap :=
  match ds with
  | [] => ([], h)
  | d :: ds' =>
      let '(l, h1) := new_dict d h in
      let '(ls, h2) := new_dicts ds' h1 in
      (l :: ls, h2)
  end.

(** The contents of a collection: the records its elements point to. *)
Definition records_at (h : heap) (c : loc) : list (gmap string string) :=
  dict_at h <$> list_at h c.

(** ** The server object, the world and the monad *)

(** Instance attributes of [Server]. [socket_name], [socket_path] and
    [config_file] default to the class attribute [None]; [_clients] is absent
    until something assigns it. *)
Record Server : Type := mkServer {
  socket_name : option string;
  socket_path : option string;
  config_file : option string;
  _windows : loc;
  _panes : loc;
  _sessions : loc;
  _clients : option loc
}.

Record world : Type := World {
  w_self : Server;
  w_heap : heap;
  w_environ : gmap string string;      (* os.environ *)
  w_calls : list (list string)         (* argument lists handed to tmux *)
}.

Inductive exn : Type :=
  | NameError (name : string)
  | AttributeError (attr : string)
  | KeyError (key : string)
  | IndexError
  | TypeError
  | ValueError
  | TmuxSessionExists (msg : string)
  | Exception (msg : string).

Inductive result (A : Type) : Type :=
  | Ok (a : A)
  | Raise (e : exn).
Arguments Ok {A} a.
Arguments Raise {A} e.

Global Instance exn_eq_dec : EqDecision exn.
Proof. solve_decision. Defined.

Global Instance result_eq_dec {A} `{EqDecision A} : EqDecision (result A).
Proof. solve_decision. Defined.

Definition M (A : Type) : Type := world → result A * world.

Definition ret {A} (a : A) : M A := λ w, (Ok a, w).

Definition bind {A B} (m : M A) (k : A → M B) : M B :=
  λ w, match m w with
       | (Ok a, w') => k a w'
       | (Raise e, w') => (Raise e, w')
       end.

Definition raise {A} (e : exn) : M A := λ w, (Raise e, w).

Declare Scope py_scope.
Delimit Scope py_scope with py.
Notation "x <- m ;; k" := (bind m (λ x, k))
  (at level 100, m at next level, right associativity) : py_scope.
Notation "m ;;; k" := (bind m (λ _, k))
  (at level 100, right associativity) : py_scope.
Open Scope py_scope.

Definition get_self : M Server := λ w, (Ok (w_self w), w).
Definition get_heap : M heap := λ w, (Ok (w_heap w), w).
Definition put_heap (h : heap) : M unit :=
  λ w, (Ok tt, World (w_self w) h (w_environ w) (w_calls w)).
Definition put_environ (e : gmap string string) : M unit :=
  λ w, (Ok tt, World (w_self w) (w_heap w) e (w_calls w)).

Definition when (b : bool) (m : M unit) : M unit := if b then m else ret tt.

(** [for x in l: body(x)] over a list that the body does not change. *)
Fixpoint for_each {A} (l : list A) (body : A → M unit) : M unit :=
  match l with
  | [] => ret tt
  | x :: l' => body x ;;; for_each l' body
  end.

(** Fresh record objects for a list of dict values. *)
Definition alloc_dicts (ds : list (gmap string string)) : M (list loc) :=
  λ w, let '(ls, h) := new_dicts ds (w_heap w) in
       (Ok ls, World (w_self w) h (w_environ w) (w_calls w)).

(** [d[key]], a [KeyError] when the key is absent. *)
Definition getitem (d : loc) (key : string) : M string :=
  h <- get_heap ;;
  match dict_at h d !! key with
  | Some v => ret v
  | None => raise (KeyError key)
  end.

(** [d.get(key)], [None] when the key is absent. *)
Definition dict_get (d : loc) (key : string) : M (option string) :=
  h <- get_heap ;; ret (dict_at h d !! key).

(** [c.append(x)], [c.extend(xs)], [c[:] = []] on a list object. *)
Definition list_append (c : loc) (x : loc) : M unit :=
  h <- get_heap ;; put_heap (set_list c (list_at h c ++ [x]) h).

Definition list_extend (c : loc) (xs : list loc) : M unit :=
  h <- get_heap ;; put_heap (set_list c (list_at h c ++ xs) h).

Definition list_clear (c : loc) : M unit :=
  h <- get_heap ;; put_heap (set_list c [] h).

(** [c.remove(x)]: deletes the first element that compares equal to [x];
    two record dicts compare equal when they hold the same pairs. *)
Fixpoint remove_first (h : heap) (d : gmap string string) (l : list loc)
  : option (list loc) :=
  match l with
  | [] => None
  | y :: l' =>
      if decide (dict_at h y = d) then Some l'
      else cons y <$> remove_first h d l'
  end.

Definition list_remove (c : loc) (x : loc) : M unit :=
  h <- get_heap ;;
  match remove_first h (dict_at h x) (list_at h c) with
  | Some l' => put_heap (set_list c l' h)
  | None => raise ValueError
  end.

(** ** Module namespace

    A global name used inside a method is looked up in the module's
    namespace when the statement runs. The namespace of [tmuxp.server] holds
    what its import statements and its class statement bind. *)
Inductive gval : Type :=
  | GModule
  | GClass
  | GObject
  | GExcClass
  | GStrList (l : list string).

Global Instance gval_eq_dec : EqDecision gval.
Proof. solve_decision. Defined.

Definition server_py_globals : gmap string gval :=
  py_dict
    [ ("__name__", GObject); ("__doc__", GObject); ("__file__", GObject);
      ("__package__", GObject); ("__builtins__", GModule);
      ("absolute_import", GObject); ("division", GObject);
      ("print_function", GObject); ("with_statement", GObject);
      ("os", GModule);
      ("tmux", GClass); ("TmuxRelationalObject", GClass);
      ("Session", GClass);
      ("formats", GModule);
      ("logging", GModule);
      ("logger", GObject);
      ("Server", GClass) ].

(** Reading a global that should be a list of field names. *)
Definition global_fields (G : gmap string gval) (name : string)
  : M (list string) :=
  match G !! name with
  | None => raise (NameError name)
  | Some (GStrList l) => ret l
  | Some _ => raise TypeError
  end.

(** [raise name(msg)] for a global that should be the session-exists
    exception class. *)
Definition raise_global {A} (G : gmap string gval) (name msg : string) : M A :=
  match G !! name with
  | None => raise (NameError name)
  | Some GExcClass => raise (TmuxSessionExists msg)
  | Some _ => raise TypeError
  end.

(** ** The gateway and the methods of [Server] *)

(** What one [tmux] invocation hands back. *)
Record response : Type := Response {
  stdout : pyval;
  stderr : string
}.

(** Modelled from the spec: [len] of a gateway response, which the class
    [tmux] of [tmuxp.util] would define, is the row count of the response
    ("the client-row count"). *)
Definition response_len (r : response) : nat := length (py_iter (stdout r)).

(** The session wrapper returned by [new_session]. *)
Record Session : Type := mkSession {
  session_server : Server;
  session_attrs : gmap string string
}.

(** [Server.__init__] (lines 44-57) on an empty object store. *)
Definition Server_init (sn sp cf : option string) (env : gmap string string)
  : world :=
  let h0 := Heap ∅ ∅ in
  let '(lw, h1) := new_list [] h0 in
  let '(lp, h2) := new_list [] h1 in
  let '(ls, h3) := new_list [] h2 in
  World
    {| socket_name := if opt_truthy sn then sn else None;
       socket_path := if opt_truthy sp then sp else None;
       config_file := if opt_truthy cf then cf else None;
       _windows := lw; _panes := lp; _sessions := ls;
       _clients := None |}
    h3 env [].

Section Server.

(** [formats.SESSION_FORMATS], [formats.WINDOW_FORMATS] and
    [formats.PANE_FORMATS] of the module [tmuxp.formats]. *)
Variables SESSION_FORMATS WINDOW_FORMATS PANE_FORMATS : list string.

(** The external [tmux] process: its answer to an argument list may depend
    on the environment it inherits and on everything run before. *)
Variable tmux_bin :
  gmap string string → list (list string) → list string → response.

(** The call [tmux] of [tmuxp.util] on an argument list. *)
Definition tmux (args : list string) : M response :=
  λ w, (Ok (tmux_bin (w_environ w) (w_calls w) args),
        World (w_self w) (w_heap w) (w_environ w) (w_calls w ++ [args])).

Definition flag (prefix : string) (o : option string) : list string :=
  match o with
  | Some v => if truthy v then [prefix +:+ v] else []
  | None => []
  end.

(** [Server.tmux] (lines 59-68): each [insert(0, ...)] puts its flag in
    front of the ones inserted before it. *)
Definition Server_argv (self : Server) (args : list string) : list string :=
  flag "-f" (config_file self) ++
  flag "-S" (socket_path self) ++
  flag "-L" (socket_name self) ++ args.

Definition Server_tmux (args : list string) : M response :=
  self <- get_self ;; tmux (Server_argv self args).

Definition tmux_format (f : string) : string := "#{" +:+ f +:+ "}".

Definition list_sessions_args : list string :=
  [ "list-sessions"; "-F" +:+ join TAB (tmux_format <$> SESSION_FORMATS) ].

(** [_list_sessions] (lines 70-86). *)
Definition _list_sessions : M pyval :=
  sessions <- Server_tmux list_sessions_args ;;
  if truthy (stderr sessions) then raise (Exception (stderr sessions))
  else ret (stdout sessions).

(** The tail shared by the three refreshes (lines 107-111, 176-180,
    236-240): empty the list object in place when it is not empty, then
    extend it. *)
Definition replace_contents (c : loc) (new : list loc) : M unit :=
  h <- get_heap ;;
  when (bool_decide (list_at h c ≠ [])) (list_clear c) ;;;
  list_extend c new.

(** [_update_sessions] (lines 88-113). *)
Definition _update_sessions : M unit :=
  let sformats := SESSION_FORMATS in
  sessions <- _list_sessions ;;
  new_sessions <- alloc_dicts (parse (py_iter sessions) sformats) ;;
  self <- get_self ;;
  replace_contents (_sessions self) new_sessions.

Definition wformats : list string :=
  ["session_name"; "session_id"] ++ WINDOW_FORMATS.

Definition list_windows_args : list string :=
  [ "list-windows"; "-a"; "-F" +:+ join TAB (tmux_format <$> wformats) ].

(** [_list_windows] (lines 131-148). *)
Definition _list_windows : M pyval :=
  windows <- Server_tmux list_windows_args ;;
  if truthy (stderr windows) then raise (Exception (stderr windows))
  else ret (stdout windows).

(** [_update_windows] (lines 150-182). *)
Definition _update_windows : M unit :=
  windows <- _list_windows ;;
  windows <- alloc_dicts (parse (py_iter windows) wformats) ;;
  self <- get_self ;;
  replace_contents (_windows self) windows.

Definition pformats : list string :=
  ["session_name"; "session_id"; "window_index"; "window_id"]
  ++ PANE_FORMATS.

Definition list_panes_args : list string :=
  [ "list-panes"; "-a";
    "-F" +:+ join "" ((λ f, "#{" +:+ f +:+ "}" +:+ TAB) <$> pformats) ].

(** [_list_panes] (lines 184-206). *)
Definition _list_panes : M pyval :=
  panes <- Server_tmux list_panes_args ;;
  if truthy (stderr panes) then raise (Exception (stderr panes))
  else ret (stdout panes).

(** [_update_panes] (lines 208-242). *)
Definition _update_panes : M unit :=
  panes <- _list_panes ;;
  panes <- alloc_dicts (parse (py_iter panes) pformats) ;;
  self <- get_self ;;
  replace_contents (_panes self) panes.

(** [has_clients] (lines 321-326). *)
Definition has_clients : M bool :=
  r <- Server_tmux ["list-clients"] ;;
  if bool_decide (1 < response_len r) then ret true else ret false.

(** [has_session] (lines 354-370). *)
Definition has_session (target_session : string) : M bool :=
  proc <- Server_tmux ["has-session"; "-t" +:+ target_session] ;;
  if py_in "failed to connect to server" (stdout proc) then ret false
  else if py_in "session not found" (stdout proc) then ret false
  else ret true.

(** [kill_session] (lines 378-392). *)
Definition kill_session (target_session : string) : M unit :=
  proc <- Server_tmux ["kill-session"; "-t" +:+ target_session] ;;
  if truthy (stderr proc) then raise (Exception (stderr proc))
  else _update_sessions.

Definition new_session_args (session_name : string) (attach : bool)
  : list string :=
  [ "-s" +:+ session_name; "-P";
    "-F" +:+ join TAB (tmux_format <$> SESSION_FORMATS) ]
  ++ (if attach then [] else ["-d"]).

(** [new_session] (lines 426-515). [G] is the namespace of the module the
    method runs in. *)
Definition new_session (G : gmap string gval)
    (session_name : string) (kill_session attach : bool) : M Session :=
  exists_ <- has_session session_name ;;
  (if exists_ then
     if kill_session then
       _ <- Server_tmux ["kill-session"; "-t" +:+ session_name] ;; ret tt
     else
       raise_global G "TmuxSessionExists"
         ("Session named " +:+ session_name +:+ " exists")
   else ret tt) ;;;
  let sformats := SESSION_FORMATS in
  env <- (λ w, (Ok (w_environ w !! "TMUX"), w)) ;;
  when (opt_truthy env)
    (λ w, put_environ (delete "TMUX" (w_environ w)) w) ;;;
  session_info <- Server_tmux
    ("new-session" :: new_session_args session_name attach) ;;
  if truthy (stderr session_info)
  then raise (Exception (stderr session_info))
  else
    match py_iter (stdout session_info) with
    | [] => raise IndexError
    | line :: _ =>
        when (opt_truthy env)
          (λ w, put_environ (<["TMUX" := default "" env]> (w_environ w)) w) ;;;
        let session_info := parse_line sformats line in
        self <- get_self ;;
        let session := mkSession self session_info in
        _update_sessions ;;;
        ret session
    end.

(** [new = {client['client_tty']: client for client in new_clients}]
    (line 274): a record without the key stops the comprehension. *)
Fixpoint index_new (cs : list loc) (acc : gmap (option string) loc)
  : M (gmap (option string) loc) :=
  match cs with
  | [] => ret acc
  | c :: cs' =>
      tty <- getitem c "client_tty" ;;
      index_new cs' (<[Some tty := c]> acc)
  end.

(** [old = {client.get('client_tty'): client for client in self._clients}]
    (line 275); the key of a record without [client_tty] is [None]. *)
Definition index_old (h : heap) (cs : list loc) : gmap (option string) loc :=
  py_dict ((λ c, (dict_at h c !! "client_tty", c)) <$> cs).

(** The record a key of [new] or [old] stands for. *)
Definition rec_of (h : heap) (m : gmap (option string) loc)
    (id : option string) : gmap string string :=
  from_option (dict_at h) ∅ (m !! id).

(** [diff] (lines 281-282). *)
Definition clients_diff (h : heap) (new old : gmap (option string) loc)
    (intersect : gset (option string))
  : gmap (option string) (gmap string string) :=
  set_to_map (λ id, (id, dict_diff (rec_of h new id) (rec_of h old id)))
    intersect.

(** The body of the loop of lines 292-300 for the element [s]. *)
Definition sync_step (c : loc) (deleted intersect : gset (option string))
    (diff : gmap (option string) (gmap string string)) (s : loc) : M unit :=
  k <- dict_get s "client_tty" ;;
  when (bool_decide (k ∈ deleted)) (list_remove c s) ;;;
  k <- dict_get s "client_tty" ;;
  if bool_decide (k ∈ intersect) then
    match diff !! k with
    | Some p =>
        h <- get_heap ;;
        put_heap (set_dict s (dict_update (dict_at h s) p) h)
    | None => raise (KeyError (default "None" k))
    end
  else ret tt.

(** The loop of lines 292-300. A Python list iterator keeps an index into
    the list object and stops when the index reaches the current length;
    the body may shorten the list under it. The list never grows inside
    the loop, so its initial length bounds the number of iterations. *)
Fixpoint sync_loop (fuel i : nat) (c : loc)
    (deleted intersect : gset (option string))
    (diff : gmap (option string) (gmap string string)) : M unit :=
  match fuel with
  | 0 => ret tt
  | S fuel' =>
      h <- get_heap ;;
      match list_at h c !! i with
      | None => ret tt
      | Some s =>
          sync_step c deleted intersect diff s ;;;
          sync_loop fuel' (S i) c deleted intersect diff
      end
  end.

(** The body of both appending loops (lines 269-271 and 303-305): the log
    line reads [client['client_tty']] before the record is appended. *)
Definition add_client (c : loc) (client : loc) : M unit :=
  _ <- getitem client "client_tty" ;; list_append c client.

(** [list_clients] (lines 244-307). [G] is the namespace of the module the
    method runs in. The iteration order of the Python set [created] is not
    specified; the model takes the order of [elements]. *)
Definition list_clients (G : gmap string gval) : M loc :=
  formats <- global_fields G "CLIENT_FORMATS" ;;
  r <- Server_tmux
    [ "list-clients"; "-F" +:+ join TAB (tmux_format <$> formats) ] ;;
  let clients := stdout r in
  new_clients <- alloc_dicts (parse (py_iter clients) formats) ;;
  self <- get_self ;;
  match _clients self with
  | None => raise (AttributeError "_clients")
  | Some c =>
      h <- get_heap ;;
      if bool_decide (list_at h c = []) then
        for_each new_clients (add_client c) ;;;
        ret c
      else
        new <- index_new new_clients ∅ ;;
        h <- get_heap ;;
        let old := index_old h (list_at h c) in
        let created := dom new ∖ dom old in
        let deleted := dom old ∖ dom new in
        let intersect := dom new ∩ dom old in
        let diff := clients_diff h new old intersect in
        sync_loop (length (list_at h c)) 0 c deleted intersect diff ;;;
        for_each (omap (λ k, new !! k) (elements created)) (add_client c) ;;;
        ret c
  end.

End Server.

(** ** Closed forms used in the statements *)

(** The world after one more [tmux] invocation. *)
Definition called (w : world) (argv : list string) : world :=
  World (w_self w) (w_heap w) (w_environ w) (w_calls w ++ [argv]).

(** The world with another object store. *)
Definition with_heap (w : world) (h : heap) : world :=
  World (w_self w) h (w_environ w) (w_calls w).

(** The outcome of a full-replace refresh that got the response [r] to the
    invocation [argv]: non-empty stderr raises before anything is touched;
    otherwise the parsed rows become fresh records and the list object
    [c] holds exactly those. *)
Definition refresh_outcome (r : response) (argv : list string)
    (fields : list string) (c : loc) (w : world) : result unit * world :=
  if truthy (stderr r) then (Raise (Exception (stderr r)), called w argv)
  else
    let '(ls, h) := new_dicts (parse (py_iter (stdout r)) fields) (w_heap w) in
    (Ok tt, with_heap (called w argv) (set_list c ls h)).

(** A refresh [op] of the collection behind the attribute [attr], answered
    by [r], works in place: the server object keeps all its attributes; on
    non-empty stderr the call raises and the object store is untouched;
    otherwise the only change to the list objects is the content of the one
    the attribute already pointed to, and that content is the parsed rows. *)
Definition refreshes_in_place (op : M unit) (r : response)
    (fields : list string) (attr : Server → loc) (w : world) : Prop :=
  let alias := attr (w_self w) in
  let out := op w in
  w_self out.2 = w_self w ∧
  if truthy (stderr r)
  then out.1 = Raise (Exception (stderr r)) ∧ w_heap out.2 = w_heap w
  else out.1 = Ok tt ∧
       h_lists (w_heap out.2)
         = <[alias := list_at (w_heap out.2) alias]> (h_lists (w_heap w)) ∧
       records_at (w_heap out.2) alias = parse (py_iter (stdout r)) fields.

(** A sequence of records keyed by [client_tty], the way lines 274-275 key
    them: the key of a record without the attribute is [None], and a later
    record replaces an earlier one with the same key. *)
Definition by_key (ds : list (gmap string string))
  : gmap (option string) (gmap string string) :=
  py_dict ((λ d, (d !! "client_tty", d)) <$> ds).

(** ** Sample data *)

Definition session_fields : list string := ["session_name"; "session_id"].
Definition client_fields : list string := ["client_tty"; "w"].

(** One output line with two columns. *)
Definition row (a b : string) : string := a +:+ TAB +:+ b.

(** A namespace like the module's, with [CLIENT_FORMATS] bound. *)
Definition globals_with_client_formats : gmap string gval :=
  <["CLIENT_FORMATS" := GStrList client_fields]> server_py_globals.

(** A process that lists one session the first time it is run and two
    others afterwards. *)
Definition two_polls (env : gmap string string) (calls : list (list string))
    (argv : list string) : response :=
  match calls with
  | [] => Response (PLines [row "work" "$1"]) ""
  | _ :: _ => Response (PLines [row "mail" "$2"; row "logs" "$3"]) ""
  end.

(** A process without the session [foo] that refuses to create one. *)
Definition refusing (env : gmap string string) (calls : list (list string))
    (argv : list string) : response :=
  match argv with
  | "has-session" :: _ => Response (PStr "session not found: foo") ""
  | "new-session" :: _ => Response (PLines []) "create failed"
  | _ => Response (PLines []) ""
  end.

(** A process in which every probed session exists and every subcommand
    succeeds silently, the listing showing two sessions. *)
Definition agreeable (env : gmap string string) (calls : list (list string))
    (argv : list string) : response :=
  match argv with
  | "list-sessions" :: _ => Response (PLines [row "foo" "$1"; row "bar" "$2"]) ""
  | "kill-session" :: "-tgone" :: _ => Response (PLines []) "session not found: gone"
  | _ => Response (PLines []) ""
  end.

(** A process whose every answer is the given rows. *)
Definition polling (rows : list string) (env : gmap string string)
    (calls : list (list string)) (argv : list string) : response :=
  Response (PLines rows) "".

(** A freshly constructed server inside a tmux session. *)
Definition nested_world : world :=
  Server_init None None None {[ "TMUX" := "/tmp/tmux-1000/default,4242,0" ]}.

Definition plain_world : world := Server_init None None None ∅.

(** A server whose [_clients] has been set to a list of the given records. *)
Definition client_world (olds : list (gmap string string)) : world :=
  let w := plain_world in
  let '(ls, h) := new_dicts olds (w_heap w) in
  let '(c, h') := new_list ls h in
  World
    {| socket_name := None; socket_path := None; config_file := None;
       _windows := _windows (w_self w); _panes := _panes (w_self w);
       _sessions := _sessions (w_self w); _clients := Some c |}
    h' ∅ [].

Definition client_A : gmap string string :=
  {[ "client_tty" := "/dev/ttys1"; "w" := "80" ]}.
Definition client_B : gmap string string :=
  {[ "client_tty" := "/dev/ttys2"; "w" := "80" ]}.
Definition client_C : gmap string string :=
  {[ "client_tty" := "/dev/ttys3"; "w" := "120" ]}.

(** The collection object of a world, and what it holds. *)
Definition clients_of (w : world) : option (list loc * list (gmap string string)) :=
  (λ c, (list_at (w_heap w) c, records_at (w_heap w) c)) <$> _clients (w_self w).

(** A process without the session [foo] that creates it, answering the
    create subcommand with the given rows, unless it is asked from inside a
    tmux session; its listing shows the new session. *)
Definition creating (rows : list string) (env : gmap string string)
    (calls : list (list string)) (argv : list string) : response :=
  match argv with
  | "has-session" :: _ => Response (PStr "session not found: foo") ""
  | "new-session" :: _ =>
      if opt_truthy (env !! "TMUX")
      then Response (PLines []) "sessions should be nested with care"
      else Response (PLines rows) ""
  | _ => Response (PLines [row "foo" "$7"]) ""
  end.


(** A server constructed with a socket name, a socket path and a
    configuration file. *)
Definition configured_world : world :=
  Server_init (Some "work") (Some "/tmp/tmux.sock") (Some "tmux.conf") ∅.

(** ** The remaining methods of [Server] *)

Section ServerMore.

Variable SESSION_FORMATS : list string.
Variable tmux_bin :
  gmap string string → list (list string) → list string → response.

(** The property [sessions] as the class ends up binding it (lines 394-396;
    this second definition replaces the one of lines 115-128 under the
    name [sessions]). [_update_sessions] returns [self]. *)
Definition sessions : M loc :=
  _update_sessions SESSION_FORMATS tmux_bin ;;;
  self <- get_self ;;
  ret (_sessions self).

(** The loop of [attached_sessions] (lines 342-350) over the records of the
    cached collection; [acc] is the list built so far. *)
Fixpoint attached_loop (h : heap) (sessions : list loc) (acc : list loc)
  : list loc :=
  match sessions with
  | [] => acc
  | session :: rest =>
      match dict_at h session !! "session_attached" with
      | Some v =>
          if decide (v = "1") then attached_loop h rest (acc ++ [session])
          else attached_loop h rest acc
      | None => attached_loop h rest acc
      end
  end.

(** [attached_sessions] (lines 332-352). The list it builds is a new object
    that nothing else holds, so it is returned by value; [x or None] turns
    the empty list into [None]. *)
Definition attached_sessions : M (option (list loc)) :=
  self <- get_self ;;
  h <- get_heap ;;
  let attached := attached_loop h (list_at h (_sessions self)) [] in
  ret (if bool_decide (attached = []) then None else Some attached).

(** [kill_server] (lines 372-376). *)
Definition kill_server : M unit :=
  _ <- Server_tmux tmux_bin ["kill-server"] ;; ret tt.

(** [switch_client] (lines 398-408). *)
Definition switch_client (target_session : string) : M unit :=
  proc <- Server_tmux tmux_bin ["switch-client"; "-t" +:+ target_session] ;;
  if truthy (stderr proc) then raise (Exception (stderr proc)) else ret tt.

(** [attach_session] (lines 410-424); the target defaults to [None]. *)
Definition attach_session (target_session : option string) : M unit :=
  let tmux_args :=
    if opt_truthy target_session
    then ["-t" +:+ default "" target_session] else [] in
  proc <- Server_tmux tmux_bin ("attach-session" :: tmux_args) ;;
  if truthy (stderr proc) then raise (Exception (stderr proc)) else ret tt.

(** What is left of [new_session] (lines 473-515) once the guard of lines
    465-471 has let the call through. *)
Definition new_session_rest (session_name : string) (attach : bool)
  : M Session :=
  let sformats := SESSION_FORMATS in
  env <- (λ w, (Ok (w_environ w !! "TMUX"), w)) ;;
  when (opt_truthy env)
    (λ w, put_environ (delete "TMUX" (w_environ w)) w) ;;;
  session_info <- Server_tmux tmux_bin
    ("new-session" :: new_session_args SESSION_FORMATS session_name attach) ;;
  if truthy (stderr session_info)
  then raise (Exception (stderr session_info))
  else
    match py_iter (stdout session_info) with
    | [] => raise IndexError
    | line :: _ =>
        when (opt_truthy env)
          (λ w, put_environ (<["TMUX" := default "" env]> (w_environ w)) w) ;;;
        let session_info := parse_line sformats line in
        self <- get_self ;;
        let session := mkSession self session_info in
        _update_sessions SESSION_FORMATS tmux_bin ;;;
        ret session
    end.

End ServerMore.

(** The environment the create subcommand of [new_session] runs in. *)
Definition create_environ (env : gmap string string) : gmap string string :=
  if opt_truthy (env !! "TMUX") then delete "TMUX" env else env.

(** A full-replace refresh [op] of the collection behind [attr], issued as
    [argv], touches nothing but that collection: the environment stays, the
    invocation is the only one logged, every other list object keeps its
    content, and every record object that existed keeps its content. *)
Definition refresh_frames (op : M unit) (argv : list string)
    (attr : Server → loc) (w : world) : Prop :=
  let out := op w in
  w_environ out.2 = w_environ w ∧
  w_calls out.2 = w_calls w ++ [argv] ∧
  (∀ c, c ≠ attr (w_self w) →
        h_lists (w_heap out.2) !! c = h_lists (w_heap w) !! c) ∧
  (∀ l, is_Some (h_dicts (w_heap w) !! l) →
        h_dicts (w_heap out.2) !! l = h_dicts (w_heap w) !! l).

(** What the loop of lines 292-300 leaves of a list when the elements that
    satisfy [gone] are removed while the list is iterated: after a removal
    the iterator steps over the element that follows. *)
Fixpoint sweep (gone : loc → bool) (l : list loc) : list loc :=
  match l with
  | [] => []
  | x :: rest =>
      if gone x then
        match rest with
        | [] => []
        | y :: rest' => y :: sweep gone rest'
        end
      else x :: sweep gone rest
  end.

(** The elements the same loop visits without removing them. *)
Fixpoint visited (gone : loc → bool) (l : list loc) : list loc :=
  match l with
  | [] => []
  | x :: rest =>
      if gone x then
        match rest with
        | [] => []
        | _ :: rest' => visited gone rest'
        end
      else x :: visited gone rest
  end.

(** * Properties *)

(** ** Strings *)

Lemma append_nil (s : string) : "" +:+ s = s.
Proof. reflexivity. Qed.

Lemma append_cons a (s t : string) : String a s +:+ t = String a (s +:+ t).
Proof. reflexivity. Qed.

Lemma split_nonempty sep s : split sep s ≠ [].
Proof.
  destruct s as [|c s]; simpl; [done|].
  case_decide; [done|]. by destruct (split sep s).
Qed.

Lemma join_cons sep x y l : join sep (x :: y :: l) = x +:+ sep +:+ join sep (y :: l).
Proof. reflexivity. Qed.

(** Joining the tokens with the separator gives the line back. *)
Lemma join_split sep s : join (String sep "") (split sep s) = s.
Proof.
  induction s as [|c s IH]; [done|]. simpl split.
  case_decide as Hc.
  - subst c. pose proof (split_nonempty sep s) as Hne.
    destruct (split sep s) as [|t ts]; [done|].
    rewrite join_cons, IH. reflexivity.
  - pose proof (split_nonempty sep s) as Hne.
    destruct (split sep s) as [|t ts]; [done|].
    destruct ts as [|t' ts].
    + simpl in *. by rewrite IH.
    + rewrite join_cons. rewrite join_cons in IH. by rewrite <- IH.
Qed.

(** No token contains the separator. *)
Lemma split_tokens_clean sep s t : t ∈ split sep s → ¬ has_char sep t.
Proof.
  revert t. induction s as [|c s IH]; intros t; simpl.
  - intros ->%list_elem_of_singleton. simpl. tauto.
  - case_decide as Hc.
    + intros [->|Hin]%elem_of_cons; [simpl; tauto | by apply IH].
    + pose proof (split_nonempty sep s) as Hne.
      destruct (split sep s) as [|t0 ts]; [done|].
      intros [->|Hin]%elem_of_cons.
      * simpl. intros [?|Hh]; [done|]. eapply IH; [|exact Hh]. left.
      * apply IH. by right.
Qed.

Lemma is_prefix_spec p s : is_prefix p s = true ↔ ∃ post, s = p +:+ post.
Proof.
  revert s. induction p as [|a p IH]; intros s; simpl.
  - split; [intros _; by exists s | done].
  - destruct s as [|b s].
    + split; [done | intros [post ?]; discriminate].
    + case_decide as Hab.
      * subst b. rewrite IH.
        split; intros [post Hp]; exists post; rewrite append_cons in *; congruence.
      * split; [done | intros [post ?]; rewrite append_cons in *; congruence].
Qed.

Lemma str_in_spec m s : str_in m s = true ↔ ∃ pre post, s = pre +:+ m +:+ post.
Proof.
  induction s as [|c s IH].
  - simpl. rewrite orb_false_r, is_prefix_spec. split.
    + intros [post ->]. by exists "", post.
    + intros (pre & post & Hs).
      destruct pre; [by exists post | by rewrite append_cons in Hs].
  - cbn [str_in]. rewrite orb_true_iff, IH, is_prefix_spec. split.
    + intros [[post ->] | (pre & post & ->)].
      * by exists "", post.
      * by exists (String c pre), post.
    + intros (pre & post & Hs). destruct pre as [|a pre].
      * left. by exists post.
      * right. exists pre, post. rewrite append_cons in Hs. congruence.
Qed.

Lemma py_in_spec m v : py_in m v = true ↔ py_contains v m.
Proof.
  destruct v as [s|l]; simpl.
  - apply str_in_spec.
  - apply bool_decide_eq_true.
Qed.

Lemma truthy_true s : truthy s = true ↔ s ≠ "".
Proof. apply bool_decide_eq_true. Qed.

Lemma truthy_false s : truthy s = false ↔ s = "".
Proof.
  unfold truthy. rewrite bool_decide_eq_false. split; [|by intros ->; auto].
  intros H. by destruct (decide (s = "")).
Qed.

(** ** Dicts *)

Lemma py_dict_snoc {K} `{Countable K} {V} (l : list (K * V)) k v :
  py_dict (l ++ [(k, v)]) = <[k := v]> (py_dict l).
Proof. unfold py_dict. by rewrite foldl_app. Qed.

(** The binding of a key is its last occurrence in the list of pairs. *)
Lemma py_dict_lookup {K} `{Countable K} {V} (l : list (K * V)) k v :
  py_dict l !! k = Some v ↔
  ∃ j, l !! j = Some (k, v) ∧ ∀ j' v', j < j' → l !! j' ≠ Some (k, v').
Proof.
  induction l as [|[k0 v0] l IH] using rev_ind.
  - unfold py_dict. simpl. rewrite lookup_empty. split; [done|].
    intros (j & Hj & _). by rewrite lookup_nil in Hj.
  - rewrite py_dict_snoc. destruct (decide (k0 = k)) as [->|Hne].
    + rewrite lookup_insert_eq. split.
      * intros [= ->]. exists (length l). split.
        -- by rewrite lookup_app_r, Nat.sub_diag by lia.
        -- intros j' v' Hlt Hj'. apply lookup_lt_Some in Hj'.
           rewrite length_app in Hj'. simpl in Hj'. lia.
      * intros (j & Hj & Hlast).
        destruct (decide (j < length l)) as [Hlt|Hge].
        -- exfalso. apply (Hlast (length l) v0 Hlt).
           by rewrite lookup_app_r, Nat.sub_diag by lia.
        -- rewrite lookup_app_r in Hj by lia.
           destruct (j - length l) as [|n] eqn:E; simpl in Hj; [congruence|].
           by rewrite lookup_nil in Hj.
    + rewrite lookup_insert_ne by done. rewrite IH. split.
      * intros (j & Hj & Hlast). exists j. split.
        -- by rewrite lookup_app_l by (by eapply lookup_lt_Some).
        -- intros j' v' Hlt Hj'.
           destruct (decide (j' < length l)) as [Hl|Hl].
           ++ rewrite lookup_app_l in Hj' by done. by eapply Hlast.
           ++ rewrite lookup_app_r in Hj' by lia.
              destruct (j' - length l) as [|n]; simpl in Hj'; [congruence|].
              by rewrite lookup_nil in Hj'.
      * intros (j & Hj & Hlast).
        assert (j < length l) as Hl.
        { destruct (decide (j < length l)) as [|Hge]; [done|].
          rewrite lookup_app_r in Hj by lia.
          destruct (j - length l) as [|n]; simpl in Hj; [congruence|].
          by rewrite lookup_nil in Hj. }
        rewrite lookup_app_l in Hj by done.
        exists j. split; [done|]. intros j' v' Hlt Hj'.
        apply (Hlast j' v' Hlt).
        by rewrite lookup_app_l by (by eapply lookup_lt_Some).
Qed.

Lemma drop_empty_lookup d k v :
  drop_empty d !! k = Some v ↔ d !! k = Some v ∧ v ≠ "".
Proof. unfold drop_empty. by rewrite map_lookup_filter_Some. Qed.

(** A field is bound to the token at its position; when a field name occurs
    more than once, the last occurrence that has a token counts. *)
Lemma parse_line_lookup fields line k v :
  parse_line fields line !! k = Some v ↔
  v ≠ "" ∧
  ∃ j, fields !! j = Some k ∧ split tab line !! j = Some v ∧
       ∀ j', j < j' → fields !! j' = Some k → split tab line !! j' = None.
Proof.
  unfold parse_line. rewrite drop_empty_lookup, py_dict_lookup. split.
  - intros [(j & Hj & Hlast) Hv]. split; [done|]. exists j.
    apply lookup_zip_with_Some in Hj as (f & t & [= <- <-] & Hf & Ht).
    repeat split; [done..|].
    intros j' Hlt Hf'. destruct (split tab line !! j') as [t'|] eqn:Ht'; [|done].
    exfalso. apply (Hlast j' t' Hlt).
    apply lookup_zip_with_Some. by exists k, t'.
  - intros [Hv (j & Hf & Ht & Hlast)]. split; [|done]. exists j. split.
    + apply lookup_zip_with_Some. by exists k, v.
    + intros j' v' Hlt Hj'.
      apply lookup_zip_with_Some in Hj' as (f & t & [= <- <-] & Hf' & Ht').
      by rewrite (Hlast j' Hlt Hf') in Ht'.
Qed.

(** C4: parsing zips the fields against the tab-split tokens by position and
    drops every pair whose value is empty: row [i] of the result is the
    record of line [i]; a record binds a field to a value exactly when the
    value is not empty and is the token at the field's position (the last
    such position when a field name is repeated); no record of a parse
    stores an empty string; and the two sample lines of the specification
    give the two sample records. *)
Theorem parse_zips_fields_and_drops_empty :
  (∀ lines fields i,
     parse lines fields !! i = parse_line fields <$> lines !! i) ∧
  (∀ fields line k v,
     parse_line fields line !! k = Some v ↔
     v ≠ "" ∧
     ∃ j, fields !! j = Some k ∧ split tab line !! j = Some v ∧
          ∀ j', j < j' → fields !! j' = Some k → split tab line !! j' = None) ∧
  (∀ lines fields r k, r ∈ parse lines fields → r !! k ≠ Some "") ∧
  parse ["a" +:+ TAB +:+ "b" +:+ TAB +:+ "c"] ["f1"; "f2"; "f3"]
    = [ {[ "f1" := "a"; "f2" := "b"; "f3" := "c" ]} ] ∧
  parse ["a" +:+ TAB +:+ TAB +:+ "c"] ["f1"; "f2"; "f3"]
    = [ {[ "f1" := "a"; "f3" := "c" ]} ].
Proof.
  split; [|split; [|split; [|split]]].
  - intros lines fields i. unfold parse. apply list_lookup_fmap.
  - apply parse_line_lookup.
  - intros lines fields r k Hr Hk. unfold parse in Hr.
    apply list_elem_of_fmap in Hr as (line & -> & _).
    apply parse_line_lookup in Hk as [Hv _]. by apply Hv.
  - compute_done.
  - compute_done.
Qed.

(** ** The object store *)

Lemma new_dicts_spec ds h ls h' :
  new_dicts ds h = (ls, h') →
  h_lists h' = h_lists h ∧
  (λ l, h_dicts h' !! l) <$> ls = Some <$> ds ∧
  NoDup ls ∧
  (∀ l, l ∈ ls → h_dicts h !! l = None) ∧
  (∀ l, l ∉ ls → h_dicts h' !! l = h_dicts h !! l).
Proof.
  revert h ls h'. induction ds as [|d ds IH]; intros h ls h'; simpl.
  - intros [= <- <-]. repeat split; [constructor | by intros ? ?%elem_of_nil].
  - set (l0 := fresh (dom (h_dicts h))).
    set (h1 := Heap (<[l0 := d]> (h_dicts h)) (h_lists h)).
    destruct (new_dicts ds h1) as [ls2 h2] eqn:E. intros [= <- <-].
    destruct (IH _ _ _ E) as (Hl & Hd & Hnd & Hfresh & Hframe).
    assert (h_dicts h !! l0 = None) as Hl0.
    { apply not_elem_of_dom. apply is_fresh. }
    assert (l0 ∉ ls2) as Hnot.
    { intros Hin. specialize (Hfresh _ Hin). simpl in Hfresh.
      by rewrite lookup_insert_eq in Hfresh. }
    repeat split.
    + done.
    + rewrite !fmap_cons, Hd. f_equal.
      rewrite (Hframe l0 Hnot). simpl. by rewrite lookup_insert_eq.
    + by constructor.
    + intros l [->|Hin]%elem_of_cons; [done|].
      specialize (Hfresh _ Hin). simpl in Hfresh.
      destruct (decide (l0 = l)) as [->|Hne]; [done|].
      by rewrite lookup_insert_ne in Hfresh.
    + intros l Hl'. apply not_elem_of_cons in Hl' as [Hne Hl'].
      rewrite (Hframe l Hl'). simpl. by rewrite lookup_insert_ne.
Qed.

Lemma new_dicts_contents ds h ls h' :
  new_dicts ds h = (ls, h') → dict_at h' <$> ls = ds.
Proof.
  intros (_ & Hd & _)%new_dicts_spec.
  apply (f_equal (fmap (default ∅))) in Hd.
  rewrite <- !list_fmap_compose in Hd.
  rewrite (list_fmap_ext _ id (ds)) in Hd by done.
  by rewrite list_fmap_id in Hd.
Qed.

Lemma new_dicts_allocated ds h ls h' l :
  new_dicts ds h = (ls, h') → l ∈ ls → is_Some (h_dicts h' !! l).
Proof.
  intros (_ & Hd & _)%new_dicts_spec Hin.
  apply list_elem_of_lookup in Hin as [i Hi].
  apply (f_equal (λ x, x !! i)) in Hd.
  rewrite !list_lookup_fmap, Hi in Hd. simpl in Hd.
  destruct (ds !! i); simplify_eq/=. by eexists.
Qed.

Lemma list_at_set_list c v h : list_at (set_list c v h) c = v.
Proof. unfold list_at, set_list. simpl. by rewrite lookup_insert_eq. Qed.

Lemma list_at_set_list_ne c c' v h :
  c ≠ c' → list_at (set_list c v h) c' = list_at h c'.
Proof. intros. unfold list_at, set_list. simpl. by rewrite lookup_insert_ne. Qed.

Lemma dict_at_set_list c v h l : dict_at (set_list c v h) l = dict_at h l.
Proof. reflexivity. Qed.

Lemma list_at_set_dict l d h c : list_at (set_dict l d h) c = list_at h c.
Proof. reflexivity. Qed.

Lemma dict_at_set_dict l d h : dict_at (set_dict l d h) l = d.
Proof. unfold dict_at, set_dict. simpl. by rewrite lookup_insert_eq. Qed.

Lemma dict_at_set_dict_ne l l' d h :
  l ≠ l' → dict_at (set_dict l d h) l' = dict_at h l'.
Proof. intros. unfold dict_at, set_dict. simpl. by rewrite lookup_insert_ne. Qed.

(** ** Running the monad *)

Ltac run :=
  repeat first
    [ progress unfold bind, ret, raise, when, get_self, get_heap, put_heap,
        put_environ, getitem, dict_get, list_append, list_extend, list_clear,
        alloc_dicts, called, with_heap
    | progress simpl ].

(** Emptying a list object in place and extending it leaves exactly the new
    elements in that same object. *)
Lemma replace_contents_run c new w :
  replace_contents c new w = (Ok tt, with_heap w (set_list c new (w_heap w))).
Proof.
  unfold replace_contents. run. case_bool_decide as Hne; run.
  - rewrite list_at_set_list. simpl. unfold set_list. simpl.
    by rewrite insert_insert_eq.
  - assert (list_at (w_heap w) c = []) as ->; [|done].
    by destruct (decide (list_at (w_heap w) c = [])).
Qed.

Lemma bind_ok {A B} (m : M A) (k : A → M B) w a w' :
  m w = (Ok a, w') → bind m k w = k a w'.
Proof. unfold bind. by intros ->. Qed.

Lemma bind_raise {A B} (m : M A) (k : A → M B) w e w' :
  m w = (Raise e, w') → bind m k w = (Raise e, w').
Proof. unfold bind. by intros ->. Qed.

Lemma get_heap_run w : get_heap w = (Ok (w_heap w), w).
Proof. reflexivity. Qed.

Lemma get_self_run w : get_self w = (Ok (w_self w), w).
Proof. reflexivity. Qed.

Lemma put_heap_run h w : put_heap h w = (Ok tt, with_heap w h).
Proof. reflexivity. Qed.

Lemma dict_get_run d key w :
  dict_get d key w = (Ok (dict_at (w_heap w) d !! key), w).
Proof. reflexivity. Qed.

Lemma getitem_run d key w v :
  dict_at (w_heap w) d !! key = Some v → getitem d key w = (Ok v, w).
Proof. intros Hv. unfold getitem, bind, get_heap. by rewrite Hv. Qed.

Lemma getitem_raise d key w :
  dict_at (w_heap w) d !! key = None →
  getitem d key w = (Raise (KeyError key), w).
Proof. intros Hv. unfold getitem, bind, get_heap. by rewrite Hv. Qed.

Lemma list_append_run c x w :
  list_append c x w =
    (Ok tt, with_heap w (set_list c (list_at (w_heap w) c ++ [x]) (w_heap w))).
Proof. reflexivity. Qed.

Lemma add_client_run c n w v :
  dict_at (w_heap w) n !! "client_tty" = Some v →
  add_client c n w =
    (Ok tt, with_heap w (set_list c (list_at (w_heap w) c ++ [n]) (w_heap w))).
Proof.
  intros Hv. unfold add_client.
  rewrite (bind_ok _ _ _ _ _ (getitem_run _ _ _ _ Hv)).
  apply list_append_run.
Qed.

Section ServerProperties.

Variables SESSION_FORMATS WINDOW_FORMATS PANE_FORMATS : list string.
Variable tmux_bin :
  gmap string string → list (list string) → list string → response.

(** The answer of the external process to [argv] in the world [w]. *)
Local Abbreviation answer w argv := (tmux_bin (w_environ w) (w_calls w) argv).

Lemma Server_tmux_run args w :
  Server_tmux tmux_bin args w =
    (Ok (answer w (Server_argv (w_self w) args)),
     called w (Server_argv (w_self w) args)).
Proof. reflexivity. Qed.

(** A full-replace refresh, whatever the collection. *)
Lemma refresh_run (lister : M pyval) (r : response) (argv fields : list string)
    (attr : Server → loc) w :
  lister w = (if truthy (stderr r) then (Raise (Exception (stderr r)), called w argv)
              else (Ok (stdout r), called w argv)) →
  (rows <- lister ;;
   new <- alloc_dicts (parse (py_iter rows) fields) ;;
   self <- get_self ;;
   replace_contents (attr self) new) w
  = refresh_outcome r argv fields (attr (w_self w)) w.
Proof.
  intros Hl. unfold refresh_outcome, bind at 1. rewrite Hl.
  destruct (truthy (stderr r)); [done|].
  unfold bind at 1. unfold alloc_dicts. simpl.
  destruct (new_dicts _ _) as [ls h] eqn:E.
  unfold bind, get_self. simpl. by rewrite replace_contents_run.
Qed.

Lemma update_sessions_run w :
  let argv := Server_argv (w_self w) (list_sessions_args SESSION_FORMATS) in
  _update_sessions SESSION_FORMATS tmux_bin w =
    refresh_outcome (answer w argv) argv SESSION_FORMATS (_sessions (w_self w)) w.
Proof.
  intros argv. unfold _update_sessions. apply refresh_run.
  unfold _list_sessions, bind. rewrite Server_tmux_run.
  by destruct (truthy _).
Qed.

Lemma update_windows_run w :
  let argv := Server_argv (w_self w) (list_windows_args WINDOW_FORMATS) in
  _update_windows WINDOW_FORMATS tmux_bin w =
    refresh_outcome (answer w argv) argv (wformats WINDOW_FORMATS)
      (_windows (w_self w)) w.
Proof.
  intros argv. unfold _update_windows. apply refresh_run.
  unfold _list_windows, bind. rewrite Server_tmux_run.
  by destruct (truthy _).
Qed.

Lemma update_panes_run w :
  let argv := Server_argv (w_self w) (list_panes_args PANE_FORMATS) in
  _update_panes PANE_FORMATS tmux_bin w =
    refresh_outcome (answer w argv) argv (pformats PANE_FORMATS)
      (_panes (w_self w)) w.
Proof.
  intros argv. unfold _update_panes. apply refresh_run.
  unfold _list_panes, bind. rewrite Server_tmux_run.
  by destruct (truthy _).
Qed.

(** What a refresh that succeeds leaves behind. *)
Lemma refresh_outcome_ok r argv fields c w :
  stderr r = "" →
  ∃ ls h,
    new_dicts (parse (py_iter (stdout r)) fields) (w_heap w) = (ls, h) ∧
    refresh_outcome r argv fields c w
      = (Ok tt, with_heap (called w argv) (set_list c ls h)) ∧
    records_at (set_list c ls h) c = parse (py_iter (stdout r)) fields.
Proof.
  intros Herr. unfold refresh_outcome.
  rewrite (proj2 (truthy_false _) Herr).
  destruct (new_dicts _ _) as [ls h] eqn:E. exists ls, h.
  repeat split. unfold records_at. rewrite list_at_set_list.
  by apply new_dicts_contents in E.
Qed.

Lemma refresh_outcome_raise r argv fields c w :
  stderr r ≠ "" →
  refresh_outcome r argv fields c w = (Raise (Exception (stderr r)), called w argv).
Proof.
  intros Herr. unfold refresh_outcome.
  by rewrite (proj2 (truthy_true _) Herr).
Qed.

(** No refresh assigns an attribute of the server object. *)
Lemma refresh_outcome_self r argv fields c w :
  w_self (refresh_outcome r argv fields c w).2 = w_self w.
Proof.
  unfold refresh_outcome. destruct (truthy _); [done|].
  by destruct (new_dicts _ _).
Qed.

Lemma refresh_outcome_in_place op r argv fields attr w :
  op w = refresh_outcome r argv fields (attr (w_self w)) w →
  refreshes_in_place op r fields attr w.
Proof.
  intros Hop. unfold refreshes_in_place. rewrite Hop.
  split; [apply refresh_outcome_self|].
  unfold refresh_outcome. destruct (truthy (stderr r)) eqn:Ht; [done|].
  destruct (new_dicts _ _) as [ls h] eqn:E. simpl.
  rewrite list_at_set_list. repeat split.
  - by destruct (new_dicts_spec _ _ _ _ E) as (-> & _).
  - unfold records_at. rewrite list_at_set_list.
    by apply new_dicts_contents in E.
Qed.

(** C5: when two successive refreshes of the sessions both get an answer
    without stderr text, the second returns normally, and the session
    collection then holds exactly the records parsed from the second answer,
    whatever the first one was; no record object of the collection was there
    before the second refresh, so none is shared with the collection the
    first refresh had left. *)
Theorem refresh_sessions_discards_previous (w0 : world) :
  let argv := Server_argv (w_self w0) (list_sessions_args SESSION_FORMATS) in
  let r1 := answer w0 argv in
  let w1 := (_update_sessions SESSION_FORMATS tmux_bin w0).2 in
  let r2 := answer w1 argv in
  let w2 := (_update_sessions SESSION_FORMATS tmux_bin w1).2 in
  stderr r1 = "" →
  stderr r2 = "" →
  (_update_sessions SESSION_FORMATS tmux_bin w1).1 = Ok tt ∧
  records_at (w_heap w2) (_sessions (w_self w2))
    = parse (py_iter (stdout r2)) SESSION_FORMATS ∧
  ∀ l, l ∈ list_at (w_heap w2) (_sessions (w_self w2)) →
       h_dicts (w_heap w1) !! l = None ∧
       l ∉ list_at (w_heap w1) (_sessions (w_self w1)).
Proof.
  intros argv r1 w1 r2 w2 H1 H2.
  pose proof (update_sessions_run w0) as R1. simpl in R1. fold argv in R1.
  destruct (refresh_outcome_ok r1 argv SESSION_FORMATS (_sessions (w_self w0))
              w0 H1) as (ls1 & h1 & E1 & O1 & _).
  fold r1 in R1. rewrite O1 in R1.
  assert (w1 = with_heap (called w0 argv)
                 (set_list (_sessions (w_self w0)) ls1 h1)) as Hw1.
  { unfold w1. by rewrite R1. }
  assert (w_self w1 = w_self w0) as Hs1 by (by rewrite Hw1).
  pose proof (update_sessions_run w1) as R2. simpl in R2.
  rewrite Hs1 in R2. fold argv r2 in R2.
  destruct (refresh_outcome_ok r2 argv SESSION_FORMATS (_sessions (w_self w0))
              w1 H2) as (ls2 & h2 & E2 & O2 & Hrec).
  rewrite O2 in R2. unfold w2. rewrite R2. simpl. rewrite Hs1.
  split; [done|]. split; [done|].
  rewrite list_at_set_list. intros l Hl.
  destruct (new_dicts_spec _ _ _ _ E2) as (_ & _ & _ & Hfresh & _).
  specialize (Hfresh l Hl). split; [done|].
  rewrite Hw1 in Hfresh |- *. simpl in *.
  rewrite list_at_set_list. intros Hin.
  destruct (new_dicts_allocated _ _ _ _ l E1 Hin) as [d Hd].
  congruence.
Qed.

(** C10: each refresh of the sessions, windows or panes works on the list
    object its attribute already points to: the attribute is not assigned,
    no other list object changes, and (when the call does not raise) the
    object an alias taken before the call points to holds exactly the
    records parsed from the answer. *)
Theorem refresh_mutates_list_in_place (w : world) :
  refreshes_in_place (_update_sessions SESSION_FORMATS tmux_bin)
    (answer w (Server_argv (w_self w) (list_sessions_args SESSION_FORMATS)))
    SESSION_FORMATS _sessions w ∧
  refreshes_in_place (_update_windows WINDOW_FORMATS tmux_bin)
    (answer w (Server_argv (w_self w) (list_windows_args WINDOW_FORMATS)))
    (wformats WINDOW_FORMATS) _windows w ∧
  refreshes_in_place (_update_panes PANE_FORMATS tmux_bin)
    (answer w (Server_argv (w_self w) (list_panes_args PANE_FORMATS)))
    (pformats PANE_FORMATS) _panes w.
Proof.
  split; [|split].
  - eapply refresh_outcome_in_place, update_sessions_run.
  - eapply refresh_outcome_in_place, update_windows_run.
  - eapply refresh_outcome_in_place, update_panes_run.
Qed.

(** C6: [has_session] always returns a boolean, after one probe; the
    boolean is [False] exactly when the probe's output contains the marker
    "failed to connect to server" or the marker "session not found" (as a
    substring when the output is a text, as an element when it is a list),
    and [True] otherwise. *)
Theorem has_session_reads_markers (target_session : string) (w : world) :
  let argv := Server_argv (w_self w) ["has-session"; "-t" +:+ target_session] in
  let out := stdout (answer w argv) in
  ∃ b : bool,
    has_session tmux_bin target_session w = (Ok b, called w argv) ∧
    (b = false ↔
       py_contains out "failed to connect to server" ∨
       py_contains out "session not found") ∧
    (b = true ↔
       ¬ py_contains out "failed to connect to server" ∧
       ¬ py_contains out "session not found").
Proof.
  intros argv out. unfold has_session, bind. rewrite Server_tmux_run.
  fold argv. fold out.
  destruct (py_in "failed to connect to server" out) eqn:E1;
    [|destruct (py_in "session not found" out) eqn:E2].
  - exists false. apply py_in_spec in E1. split; [done|]. split.
    + split; [by left | done].
    + split; [done | by intros [? _]].
  - exists false. apply py_in_spec in E2. split; [done|]. split.
    + split; [by right | done].
    + split; [done | by intros [_ ?]].
  - exists true.
    assert (¬ py_contains out "failed to connect to server") as N1.
    { rewrite <- py_in_spec. by rewrite E1. }
    assert (¬ py_contains out "session not found") as N2.
    { rewrite <- py_in_spec. by rewrite E2. }
    split; [done|]. split.
    + split; [done | by intros [?|?]].
    + by split.
Qed.

(** C8: [has_clients] returns [True] exactly when the answer to
    [list-clients] has more than one row, and [False] exactly when it has
    one row or none: the threshold is one, not zero. *)
Theorem has_clients_threshold (w : world) :
  let argv := Server_argv (w_self w) ["list-clients"] in
  let rows := response_len (answer w argv) in
  ∃ b : bool,
    has_clients tmux_bin w = (Ok b, called w argv) ∧
    (b = true ↔ 1 < rows) ∧
    (b = false ↔ rows ≤ 1).
Proof.
  intros argv rows. unfold has_clients, bind. rewrite Server_tmux_run.
  fold argv. fold rows. case_bool_decide as Hr.
  - exists true. split; [done|]. split; [done|]. split; [done | lia].
  - exists false. split; [done|]. split; [|split; [lia | done]].
    split; [done | lia].
Qed.

(** The only exception a refresh of the sessions raises carries a non-empty
    text. *)
Lemma update_sessions_raise w e :
  (_update_sessions SESSION_FORMATS tmux_bin w).1 = Raise e →
  ∃ msg, e = Exception msg ∧ msg ≠ "".
Proof.
  rewrite update_sessions_run. unfold refresh_outcome.
  destruct (truthy _) eqn:Ht.
  - intros [= <-]. eexists. split; [done|]. by apply truthy_true.
  - by destruct (new_dicts _ _).
Qed.

(** C7: [kill_session] raises the execution error that carries the stderr
    text of the kill subcommand exactly when that text is not empty, and
    then does nothing else; when it is empty, the rest of the call is a full
    refresh of the sessions, after which (if the refresh gets an answer
    without stderr text) the call returns and the session collection holds
    the records parsed from that answer. *)
Theorem kill_session_raises_or_refreshes (target_session : string) (w : world) :
  let argv := Server_argv (w_self w) ["kill-session"; "-t" +:+ target_session] in
  let proc := answer w argv in
  let out := kill_session SESSION_FORMATS tmux_bin target_session w in
  let largv := Server_argv (w_self w) (list_sessions_args SESSION_FORMATS) in
  let listed := answer (called w argv) largv in
  (out.1 = Raise (Exception (stderr proc)) ↔ stderr proc ≠ "") ∧
  (stderr proc ≠ "" → out.2 = called w argv) ∧
  (stderr proc = "" →
     out = _update_sessions SESSION_FORMATS tmux_bin (called w argv) ∧
     w_calls out.2 = w_calls w ++ [argv; largv] ∧
     (stderr listed = "" →
        out.1 = Ok tt ∧
        records_at (w_heap out.2) (_sessions (w_self w))
          = parse (py_iter (stdout listed)) SESSION_FORMATS)).
Proof.
  intros argv proc out largv listed.
  assert (out = if truthy (stderr proc)
                then (Raise (Exception (stderr proc)), called w argv)
                else _update_sessions SESSION_FORMATS tmux_bin (called w argv))
    as Hout.
  { unfold out, kill_session, bind. rewrite Server_tmux_run.
    fold argv. fold proc. by destruct (truthy (stderr proc)). }
  destruct (truthy (stderr proc)) eqn:Ht.
  - apply truthy_true in Ht. rewrite Hout. simpl. by repeat split.
  - apply truthy_false in Ht. split; [|split; [done|]].
    + split; [|done]. intros Hr. rewrite Hout in Hr.
      apply update_sessions_raise in Hr as (msg & [= Hm] & Hne). congruence.
    + intros _. split; [done|]. rewrite Hout.
      pose proof (update_sessions_run (called w argv)) as R. simpl in R.
      change (tmux_bin (w_environ w) (w_calls w ++ [argv]) _) with listed in R.
      fold largv in R. rewrite R.
      unfold refresh_outcome. destruct (truthy (stderr listed)) eqn:Hl.
      * split.
        -- simpl. by rewrite <- app_assoc.
        -- intros Hl'. apply truthy_true in Hl. done.
      * destruct (new_dicts _ _) as [ls h] eqn:E. split.
        -- simpl. by rewrite <- app_assoc.
        -- intros _. split; [done|]. simpl. unfold records_at.
           rewrite list_at_set_list. by apply new_dicts_contents in E.
Qed.

(** C9: in the namespace of the module as its source binds it, the name
    [CLIENT_FORMATS] is unbound, so [list_clients] raises [NameError] at its
    first statement, in every world: no subcommand is issued and nothing of
    the world changes (the client collection included); and the constructor
    leaves the attribute [_clients] unset. *)
Theorem list_clients_fails_on_entry (w : world) :
  server_py_globals !! "CLIENT_FORMATS" = None ∧
  list_clients tmux_bin server_py_globals w
    = (Raise (NameError "CLIENT_FORMATS"), w) ∧
  ∀ sn sp cf env, _clients (w_self (Server_init sn sp cf env)) = None.
Proof.
  assert (server_py_globals !! "CLIENT_FORMATS" = None) as Hg
    by compute_done.
  split; [done|]. split; [|done].
  unfold list_clients, bind, global_fields. rewrite Hg. reflexivity.
Qed.

Lemma has_session_run target_session w :
  let argv := Server_argv (w_self w) ["has-session"; "-t" +:+ target_session] in
  let out := stdout (answer w argv) in
  has_session tmux_bin target_session w =
    (Ok (negb (py_in "failed to connect to server" out
               || py_in "session not found" out)),
     called w argv).
Proof.
  intros argv out. unfold has_session, bind. rewrite Server_tmux_run.
  fold argv. fold out.
  by destruct (py_in "failed to connect to server" out),
              (py_in "session not found" out).
Qed.

Lemma has_session_world target_session w :
  (has_session tmux_bin target_session w).2 =
    called w (Server_argv (w_self w) ["has-session"; "-t" +:+ target_session]).
Proof. by rewrite has_session_run. Qed.

(** C3, on the code: when the probe says the session exists and
    [kill_session] is false, [new_session] run in the module's namespace
    stops with [NameError], because the name [TmuxSessionExists] it wants to
    raise is unbound there. The probe is the only subcommand issued and
    nothing else of the world changes. *)
Theorem new_session_existing_raises_name_error
    (session_name : string) (attach : bool) (w : world) :
  (has_session tmux_bin session_name w).1 = Ok true →
  new_session SESSION_FORMATS tmux_bin server_py_globals
    session_name false attach w
  = (Raise (NameError "TmuxSessionExists"),
     called w (Server_argv (w_self w) ["has-session"; "-t" +:+ session_name])).
Proof.
  intros Hex. unfold new_session. unfold bind at 1.
  destruct (has_session tmux_bin session_name w) as [res w1] eqn:E.
  assert (w1 = called w (Server_argv (w_self w)
                           ["has-session"; "-t" +:+ session_name])) as ->.
  { by rewrite <- has_session_world, E. }
  simpl in Hex. subst res. reflexivity.
Qed.

(** Were the name bound to the exception class, the same call would raise
    the session-exists error, again after the probe alone. *)
Lemma new_session_existing_raises_when_bound G session_name attach w :
  G !! "TmuxSessionExists" = Some GExcClass →
  (has_session tmux_bin session_name w).1 = Ok true →
  new_session SESSION_FORMATS tmux_bin G session_name false attach w
  = (Raise (TmuxSessionExists
              ("Session named " +:+ session_name +:+ " exists")),
     called w (Server_argv (w_self w) ["has-session"; "-t" +:+ session_name])).
Proof.
  intros HG Hex. unfold new_session. unfold bind at 1.
  destruct (has_session tmux_bin session_name w) as [res w1] eqn:E.
  assert (w1 = called w (Server_argv (w_self w)
                           ["has-session"; "-t" +:+ session_name])) as ->.
  { by rewrite <- has_session_world, E. }
  simpl in Hex. subst res. unfold bind, raise_global. by rewrite HG.
Qed.

(** C1, on the code: when the marker [TMUX] is set (to a non-empty value),
    the session does not exist yet and the create subcommand answers with
    stderr text, [new_session] raises the execution error while the marker
    is still deleted: the restoring assignment comes after the [raise]. *)
Theorem new_session_error_leaves_marker_cleared
    (G : gmap string gval) (session_name : string) (kill attach : bool)
    (w : world) (v : string) :
  let pa := Server_argv (w_self w) ["has-session"; "-t" +:+ session_name] in
  let ca := Server_argv (w_self w)
              ("new-session" :: new_session_args SESSION_FORMATS session_name attach) in
  let created := tmux_bin (delete "TMUX" (w_environ w)) (w_calls w ++ [pa]) ca in
  let out := new_session SESSION_FORMATS tmux_bin G session_name kill attach w in
  w_environ w !! "TMUX" = Some v →
  v ≠ "" →
  (has_session tmux_bin session_name w).1 = Ok false →
  stderr created ≠ "" →
  out.1 = Raise (Exception (stderr created)) ∧
  w_environ out.2 !! "TMUX" = None ∧
  w_calls out.2 = w_calls w ++ [pa; ca].
Proof.
  intros pa ca created out Henv Hv Hex Herr.
  assert (out = (Raise (Exception (stderr created)),
                 World (w_self w) (w_heap w) (delete "TMUX" (w_environ w))
                   ((w_calls w ++ [pa]) ++ [ca]))) as ->.
  { unfold out, new_session. unfold bind at 1.
    destruct (has_session tmux_bin session_name w) as [res w1] eqn:E.
    assert (w1 = called w pa) as ->.
    { pose proof (has_session_world session_name w) as Hw. by rewrite E in Hw. }
    simpl in Hex. subst res.
    unfold bind, ret, when, put_environ. simpl. rewrite Henv. simpl.
    rewrite (proj2 (truthy_true v) Hv). simpl.
    change (tmux_bin (delete "TMUX" (w_environ w)) (w_calls w ++ [pa]) _)
      with created.
    by rewrite (proj2 (truthy_true _) Herr). }
  simpl. split; [done|]. split; [by rewrite lookup_delete_eq|].
  by rewrite <- app_assoc.
Qed.

(** On the path that succeeds the marker is put back before the final
    refresh, so the environment ends as it began. *)
Lemma new_session_success_restores_marker G session_name kill attach w v line rest :
  let pa := Server_argv (w_self w) ["has-session"; "-t" +:+ session_name] in
  let ca := Server_argv (w_self w)
              ("new-session" :: new_session_args SESSION_FORMATS session_name attach) in
  let created := tmux_bin (delete "TMUX" (w_environ w)) (w_calls w ++ [pa]) ca in
  let out := new_session SESSION_FORMATS tmux_bin G session_name kill attach w in
  w_environ w !! "TMUX" = Some v →
  v ≠ "" →
  (has_session tmux_bin session_name w).1 = Ok false →
  stderr created = "" →
  py_iter (stdout created) = line :: rest →
  w_environ out.2 = w_environ w.
Proof.
  intros pa ca created out Henv Hv Hex Herr Hrows.
  unfold out, new_session. unfold bind at 1.
  destruct (has_session tmux_bin session_name w) as [res w1] eqn:E.
  assert (w1 = called w pa) as ->.
  { pose proof (has_session_world session_name w) as Hw. by rewrite E in Hw. }
  simpl in Hex. subst res.
  unfold bind at 1. unfold ret at 1. unfold bind at 1.
  cbn [w_environ called]. rewrite Henv.
  unfold bind at 1. unfold when at 1. cbn [opt_truthy].
  rewrite (proj2 (truthy_true v) Hv). unfold put_environ at 1.
  unfold bind at 1. rewrite Server_tmux_run.
  cbn [w_self w_environ w_calls w_heap called].
  fold pa. fold ca. fold created.
  rewrite (proj2 (truthy_false _) Herr), Hrows.
  unfold when, put_environ, get_self, bind, ret. cbn beta iota.
  rewrite update_sessions_run.
  cbn [w_self w_environ w_calls w_heap called].
  unfold refresh_outcome. destruct (truthy _); [|destruct (new_dicts _ _)];
    simpl; rewrite insert_delete_eq; by apply insert_id.
Qed.

(** With [kill_session] true and an existing session, the kill subcommand
    is issued right after the probe and before the create subcommand, and
    the call raises neither the session-exists error nor a [NameError],
    whatever the namespace. *)
Lemma new_session_kills_before_creating G session_name attach w :
  let pa := Server_argv (w_self w) ["has-session"; "-t" +:+ session_name] in
  let ka := Server_argv (w_self w) ["kill-session"; "-t" +:+ session_name] in
  let ca := Server_argv (w_self w)
              ("new-session" :: new_session_args SESSION_FORMATS session_name attach) in
  let out := new_session SESSION_FORMATS tmux_bin G session_name true attach w in
  (has_session tmux_bin session_name w).1 = Ok true →
  (∃ rest, w_calls out.2 = w_calls w ++ [pa; ka; ca] ++ rest) ∧
  (∀ msg, out.1 ≠ Raise (TmuxSessionExists msg)) ∧
  (∀ name, out.1 ≠ Raise (NameError name)).
Proof.
  intros pa ka ca out Hex.
  assert (∃ e we, w_calls we = w_calls w ++ [pa; ka] ∧ w_self we = w_self w ∧
            out = (x <- Server_tmux tmux_bin
                     ("new-session" :: new_session_args SESSION_FORMATS session_name attach) ;;
                   if truthy (stderr x) then raise (Exception (stderr x))
                   else match py_iter (stdout x) with
                        | [] => raise IndexError
                        | line :: _ =>
                            when (opt_truthy e)
                              (λ w, put_environ (<["TMUX" := default "" e]> (w_environ w)) w) ;;;
                            self <- get_self ;;
                            _update_sessions SESSION_FORMATS tmux_bin ;;;
                            ret (mkSession self (parse_line SESSION_FORMATS line))
                        end) we) as (e & we & Hc & Hs & ->).
  { unfold out, new_session. unfold bind at 1.
    destruct (has_session tmux_bin session_name w) as [res w1] eqn:E.
    assert (w1 = called w pa) as ->.
    { pose proof (has_session_world session_name w) as Hw. by rewrite E in Hw. }
    simpl in Hex. subst res.
    unfold bind at 1. unfold bind at 1. rewrite Server_tmux_run.
    unfold ret at 1. unfold bind at 1. cbn [w_environ w_self called].
    exists (w_environ w !! "TMUX").
    destruct (opt_truthy (w_environ w !! "TMUX")) eqn:Ht.
    - eexists. split; [|split]; [| |unfold bind at 1; unfold when at 1;
        unfold put_environ at 1; reflexivity].
      + simpl. by rewrite <- app_assoc.
      + done.
    - eexists. split; [|split]; [| |unfold bind at 1; unfold when at 1;
        unfold ret at 1; reflexivity].
      + simpl. by rewrite <- app_assoc.
      + done. }
  match goal with |- context [(?prog we).2] => remember (prog we) as o eqn:Ho end.
  unfold bind at 1 in Ho. rewrite Server_tmux_run in Ho. rewrite Hs in Ho.
  fold ca in Ho. set (x := tmux_bin _ _ ca) in Ho.
  assert (w_calls we ++ [ca] = w_calls w ++ [pa; ka; ca]) as Hcc.
  { rewrite Hc, <- app_assoc. done. }
  destruct (truthy (stderr x)).
  { subst o. split; [exists []; simpl; by rewrite ?app_nil_r|]. by split. }
  destruct (py_iter (stdout x)) as [|line rest].
  { subst o. split; [exists []; simpl; by rewrite ?app_nil_r|]. by split. }
  set (wr := (when (opt_truthy e)
                (λ w, put_environ (<["TMUX" := default "" e]> (w_environ w)) w)
                (called we ca)).2).
  assert (w_calls wr = w_calls w ++ [pa; ka; ca] ∧
          when (opt_truthy e)
            (λ w, put_environ (<["TMUX" := default "" e]> (w_environ w)) w)
            (called we ca) = (Ok tt, wr)) as [Hwr Hwhen].
  { unfold wr. destruct (opt_truthy e); by simpl. }
  unfold bind at 1 in Ho. rewrite Hwhen in Ho.
  unfold bind at 1, get_self at 1 in Ho.
  unfold bind at 1 in Ho. rewrite update_sessions_run in Ho. cbv zeta in Ho.
  unfold refresh_outcome in Ho. destruct (truthy _).
  - subst o. simpl. split; [|by split]. eexists [_]. rewrite Hwr.
    by rewrite <- app_assoc.
  - destruct (new_dicts _ _). subst o. simpl. split; [|by split]. eexists [_].
    rewrite Hwr. by rewrite <- app_assoc.
Qed.

End ServerProperties.

(** ** Client records *)

Lemma items_spec d k v : (k, v) ∈ items d ↔ d !! k = Some v.
Proof. unfold items. apply elem_of_map_to_set_pair. Qed.

(** The patch holds the pairs of the new record that the old one lacks. *)
Lemma dict_diff_lookup n o k v :
  dict_diff n o !! k = Some v ↔ n !! k = Some v ∧ o !! k ≠ Some v.
Proof.
  unfold dict_diff. rewrite lookup_set_to_map.
  - split.
    + intros ([k' v'] & Hin & [= -> ->]).
      apply elem_of_difference in Hin as [Hn Ho].
      rewrite items_spec in Hn, Ho. done.
    + intros [Hn Ho]. exists (k, v). split; [|done].
      apply elem_of_difference. by rewrite !items_spec.
  - intros [k1 v1] [k2 v2] [H1 _]%elem_of_difference [H2 _]%elem_of_difference.
    rewrite items_spec in H1, H2. simpl. intros ->. congruence.
Qed.

Lemma dict_diff_same_key n o k :
  n !! k = o !! k → dict_diff n o !! k = None.
Proof.
  intros Heq. destruct (dict_diff n o !! k) as [v|] eqn:E; [|done].
  apply dict_diff_lookup in E as [Hn Ho]. congruence.
Qed.

Lemma dict_update_lookup d p k :
  dict_update d p !! k = match p !! k with Some v => Some v | None => d !! k end.
Proof.
  unfold dict_update. destruct (p !! k) as [v|] eqn:E.
  - by apply lookup_union_Some_l.
  - by rewrite lookup_union_r.
Qed.

Lemma dict_update_idem d p : dict_update (dict_update d p) p = dict_update d p.
Proof.
  apply map_eq. intros k. rewrite !dict_update_lookup. by destruct (p !! k).
Qed.

Lemma by_key_snoc ds d :
  by_key (ds ++ [d]) = <[d !! "client_tty" := d]> (by_key ds).
Proof. unfold by_key. rewrite fmap_app. simpl. by rewrite py_dict_snoc. Qed.

(** A record found under a key carries that key. *)
Lemma by_key_lookup ds k d :
  by_key ds !! k = Some d → d !! "client_tty" = k ∧ d ∈ ds.
Proof.
  unfold by_key. intros (j & Hj & _)%py_dict_lookup.
  rewrite list_lookup_fmap in Hj.
  destruct (ds !! j) as [d'|] eqn:E; simplify_eq/=.
  split; [done|]. by eapply list_elem_of_lookup_2.
Qed.

Lemma by_key_dom ds k :
  k ∈ dom (by_key ds) ↔ ∃ d, d ∈ ds ∧ d !! "client_tty" = k.
Proof.
  induction ds as [|d ds IH] using rev_ind.
  - unfold by_key, py_dict. simpl. rewrite dom_empty_L. split.
    + by intros ?%not_elem_of_empty.
    + by intros (d & ?%elem_of_nil & _).
  - rewrite by_key_snoc, dom_insert_L, elem_of_union, elem_of_singleton, IH.
    split.
    + intros [->|(d' & Hin & Hk)].
      * exists d. split; [|done]. apply elem_of_app. right. by left.
      * exists d'. split; [|done]. apply elem_of_app. by left.
    + intros (d' & [Hin|Hin]%elem_of_app & Hk).
      * right. by exists d'.
      * apply list_elem_of_singleton in Hin as ->. by left.
Qed.

Section Clients.

Variable tmux_bin :
  gmap string string → list (list string) → list string → response.

Lemma index_old_snoc h ls l :
  index_old h (ls ++ [l]) = <[dict_at h l !! "client_tty" := l]> (index_old h ls).
Proof. unfold index_old. rewrite fmap_app. simpl. by rewrite py_dict_snoc. Qed.

(** The index over the objects of a collection holds, object by object, the
    index over their records. *)
Lemma index_old_records h ls :
  dict_at h <$> index_old h ls = by_key (dict_at h <$> ls).
Proof.
  induction ls as [|l ls IH] using rev_ind.
  - unfold index_old, by_key, py_dict. simpl. by rewrite fmap_empty.
  - rewrite index_old_snoc, fmap_insert, IH, fmap_app. simpl.
    by rewrite by_key_snoc.
Qed.

Lemma rec_of_index_old h ls k :
  rec_of h (index_old h ls) k = default ∅ (by_key (dict_at h <$> ls) !! k).
Proof.
  unfold rec_of. rewrite <- index_old_records, lookup_fmap.
  by destruct (index_old h ls !! k).
Qed.

Lemma index_old_dom h ls :
  dom (index_old h ls) = dom (by_key (dict_at h <$> ls)).
Proof. by rewrite <- index_old_records, dom_fmap_L. Qed.

Lemma index_old_elem h ls k l :
  index_old h ls !! k = Some l → l ∈ ls ∧ dict_at h l !! "client_tty" = k.
Proof.
  unfold index_old. intros (j & Hj & _)%py_dict_lookup.
  rewrite list_lookup_fmap in Hj.
  destruct (ls !! j) as [l'|] eqn:E; simplify_eq/=.
  split; [by eapply list_elem_of_lookup_2 | done].
Qed.

(** When every new record has its key, the comprehension of line 274
    returns, and its dict is the index over the new objects. *)
Lemma index_new_run cs acc w :
  (∀ n, n ∈ cs → is_Some (dict_at (w_heap w) n !! "client_tty")) →
  index_new cs acc w =
    (Ok (foldl (λ m kv, <[kv.1 := kv.2]> m) acc
           ((λ c, (dict_at (w_heap w) c !! "client_tty", c)) <$> cs)), w).
Proof.
  revert acc. induction cs as [|n cs IH]; intros acc Hk; [done|].
  simpl. unfold bind at 1. unfold getitem, bind, get_heap.
  destruct (Hk n) as [tty Htty]; [by left|]. rewrite Htty. simpl.
  rewrite IH; [done|]. intros n' Hn'. apply Hk. by right.
Qed.

Lemma with_heap_twice w h h' : with_heap (with_heap w h) h' = with_heap w h'.
Proof. reflexivity. Qed.

Lemma remove_first_length h d l l' :
  remove_first h d l = Some l' → S (length l') = length l.
Proof.
  revert l'. induction l as [|y l IH]; intros l'; simpl; [done|].
  case_decide; [by intros [= ->]|].
  destruct (remove_first h d l) as [l2|]; simpl; [|done].
  intros [= <-]. simpl. f_equal. by apply IH.
Qed.

(** [c.remove(s)] finds something whenever [s] itself is in the list. *)
Lemma remove_first_elem h s l :
  s ∈ l → is_Some (remove_first h (dict_at h s) l).
Proof.
  induction l as [|y l IH]; [by intros ?%elem_of_nil|].
  intros Hin. simpl. case_decide as Hy; [by eexists|].
  apply elem_of_cons in Hin as [->|Hin]; [done|].
  destruct (IH Hin) as [l' ->]. by eexists.
Qed.

(** One pass of the loop body never makes the collection longer. *)
Lemma sync_step_length c deleted intersect diff s w :
  length (list_at (w_heap (sync_step c deleted intersect diff s w).2) c)
  ≤ length (list_at (w_heap w) c).
Proof.
  unfold sync_step. rewrite (bind_ok _ _ _ _ _ (dict_get_run _ _ _)).
  set (k := dict_at (w_heap w) s !! "client_tty").
  assert (∃ r w1, when (bool_decide (k ∈ deleted)) (list_remove c s) w = (r, w1) ∧
            length (list_at (w_heap w1) c) ≤ length (list_at (w_heap w) c))
    as (r & w1 & Hwhen & Hlen).
  { unfold when. case_bool_decide; [|by eexists _, _].
    unfold list_remove. rewrite (bind_ok _ _ _ _ _ (get_heap_run _)).
    destruct (remove_first _ _ _) as [l'|] eqn:E; [|by eexists _, _].
    eexists _, _. split; [reflexivity|]. simpl. rewrite list_at_set_list.
    apply remove_first_length in E. lia. }
  destruct r as [[]|e].
  - rewrite (bind_ok _ _ _ _ _ Hwhen).
    rewrite (bind_ok _ _ _ _ _ (dict_get_run _ _ _)).
    destruct (bool_decide (_ ∈ intersect)); [|exact Hlen].
    destruct (diff !! _); [|exact Hlen]. simpl. exact Hlen.
  - by rewrite (bind_raise _ _ _ _ _ Hwhen).
Qed.

(** Fuel: the initial length of the collection is enough for the loop to
    end by exhausting the list; more fuel changes nothing. *)
Lemma sync_loop_fuel c deleted intersect diff fuel n :
  ∀ i w,
    length (list_at (w_heap w) c) ≤ fuel + i →
    sync_loop (fuel + n) i c deleted intersect diff w
    = sync_loop fuel i c deleted intersect diff w.
Proof.
  induction fuel as [|fuel IH]; intros i w Hlen.
  - destruct n as [|n]; [done|]. cbn [Nat.add sync_loop].
    rewrite (bind_ok _ _ _ _ _ (get_heap_run _)).
    rewrite (proj2 (lookup_ge_None _ _)); [done | lia].
  - cbn [Nat.add sync_loop].
    rewrite !(bind_ok _ _ _ _ _ (get_heap_run _)).
    destruct (list_at (w_heap w) c !! i) as [s|] eqn:Hs; [|done].
    pose proof (sync_step_length c deleted intersect diff s w) as Hstep.
    destruct (sync_step c deleted intersect diff s w) as [[[]|e] w1] eqn:E.
    + rewrite !(bind_ok _ _ _ _ _ E). apply IH. simpl in Hstep. lia.
    + by rewrite !(bind_raise _ _ _ _ _ E).
Qed.

(** Appending records that all have their key. *)
Lemma for_each_add_run c l w h :
  (∀ n, n ∈ l → is_Some (dict_at h n !! "client_tty")) →
  ∃ h', for_each l (add_client c) (with_heap w h) = (Ok tt, with_heap w h') ∧
        list_at h' c = list_at h c ++ l ∧
        h_dicts h' = h_dicts h ∧
        ∀ c', c' ≠ c → h_lists h' !! c' = h_lists h !! c'.
Proof.
  revert h. induction l as [|n l IH]; intros h Hk.
  - exists h. by rewrite app_nil_r.
  - destruct (Hk n) as [tty Htty]; [by left|].
    destruct (IH (set_list c (list_at h c ++ [n]) h)) as (h' & Hrun & Hl & Hd & Hf).
    { intros n' Hn'. rewrite dict_at_set_list. apply Hk. by right. }
    exists h'. split; [|split; [|split]].
    + cbn [for_each].
      rewrite (bind_ok _ _ _ _ _ (add_client_run c n (with_heap w h) _ Htty)).
      exact Hrun.
    + rewrite Hl, list_at_set_list. by rewrite <- app_assoc.
    + by rewrite Hd.
    + intros c' Hc'. rewrite Hf by done. unfold set_list. simpl.
      by rewrite lookup_insert_ne.
Qed.

(** The loop of lines 292-300 when no key is only in the old set: nothing
    is removed, the iteration visits every position, and every record of the
    collection ends as its old content updated with the patch of its key.
    [fuel] at least the number of positions left is enough. *)
Lemma sync_loop_patches c deleted intersect diff h0 w :
  let olds := list_at h0 c in
  let key p := dict_at h0 p !! "client_tty" in
  let patch p := default ∅ (diff !! key p) in
  (∀ p, p ∈ olds → key p ∈ intersect ∧ key p ∉ deleted) →
  (∀ k, k ∈ intersect → ∃ pk, diff !! k = Some pk ∧ pk !! "client_tty" = None) →
  ∀ fuel i h,
    length olds ≤ fuel + i →
    h_lists h = h_lists h0 →
    (∀ p, p ∈ take i olds → dict_at h p = dict_update (dict_at h0 p) (patch p)) →
    (∀ p, p ∉ take i olds → h_dicts h !! p = h_dicts h0 !! p) →
    ∃ h', sync_loop fuel i c deleted intersect diff (with_heap w h)
            = (Ok tt, with_heap w h') ∧
          h_lists h' = h_lists h0 ∧
          (∀ p, p ∈ olds → dict_at h' p = dict_update (dict_at h0 p) (patch p)) ∧
          (∀ p, p ∉ olds → h_dicts h' !! p = h_dicts h0 !! p).
Proof.
  intros olds key patch Hkeys Hdiff.
  assert (∀ i h, length olds ≤ i → h_lists h = h_lists h0 →
            (∀ p, p ∈ take i olds → dict_at h p = dict_update (dict_at h0 p) (patch p)) →
            (∀ p, p ∉ take i olds → h_dicts h !! p = h_dicts h0 !! p) →
            h_lists h = h_lists h0 ∧
            (∀ p, p ∈ olds → dict_at h p = dict_update (dict_at h0 p) (patch p)) ∧
            (∀ p, p ∉ olds → h_dicts h !! p = h_dicts h0 !! p)) as Hdone.
  { intros i h Hi Hl Hp Hu. rewrite take_ge in Hp, Hu by done. done. }
  induction fuel as [|fuel IH]; intros i h Hlen Hl Hp Hu.
  { exists h. split; [done|]. apply (Hdone i); [lia|done..]. }
  assert (list_at h c = olds) as Hlist.
  { unfold olds, list_at. by rewrite Hl. }
  cbn [sync_loop]. rewrite (bind_ok _ _ _ _ _ (get_heap_run _)).
  cbn [w_heap with_heap]. rewrite Hlist.
  destruct (olds !! i) as [s|] eqn:Hs.
  2: { exists h. split; [done|]. apply (Hdone i); [|done..].
       by apply lookup_ge_None. }
  assert (s ∈ olds) as Hin by (by eapply list_elem_of_lookup_2).
  destruct (Hkeys s Hin) as [Hki Hkd].
  destruct (Hdiff _ Hki) as (pk & Hpk & Hct).
  assert (patch s = pk) as Hpatch by (unfold patch; by rewrite Hpk).
  assert (dict_at h s !! "client_tty" = key s) as Hkey.
  { destruct (decide (s ∈ take i olds)) as [Hvis|Hnew].
    - rewrite (Hp s Hvis), dict_update_lookup, Hpatch, Hct. done.
    - unfold dict_at. by rewrite (Hu s Hnew). }
  assert (sync_step c deleted intersect diff s (with_heap w h)
          = (Ok tt, with_heap w (set_dict s (dict_update (dict_at h s) pk) h)))
    as Hstep.
  { unfold sync_step.
    rewrite (bind_ok _ _ _ _ _ (dict_get_run _ _ _)).
    cbn [w_heap with_heap]. rewrite Hkey.
    rewrite (bool_decide_eq_false_2 _ Hkd). unfold when at 1.
    rewrite (bind_ok _ _ _ tt (with_heap w h)) by done.
    rewrite (bind_ok _ _ _ _ _ (dict_get_run _ _ _)).
    cbn [w_heap with_heap]. rewrite Hkey.
    by rewrite (bool_decide_eq_true_2 _ Hki), Hpk. }
  rewrite (bind_ok _ _ _ _ _ Hstep).
  set (h2 := set_dict s (dict_update (dict_at h s) pk) h).
  destruct (IH (S i) h2) as (h' & Hrun & Hrest).
  - lia.
  - done.
  - intros p Hpin. rewrite (take_S_r _ _ _ Hs) in Hpin.
    apply elem_of_app in Hpin as [Hpin|Hpin].
    + destruct (decide (s = p)) as [->|Hne].
      * unfold h2. rewrite dict_at_set_dict, (Hp p Hpin), Hpatch.
        apply dict_update_idem.
      * unfold h2. rewrite dict_at_set_dict_ne by done. by apply Hp.
    + apply list_elem_of_singleton in Hpin as ->.
      unfold h2. rewrite dict_at_set_dict, Hpatch.
      destruct (decide (s ∈ take i olds)) as [Hvis|Hnew].
      * rewrite (Hp s Hvis), Hpatch. apply dict_update_idem.
      * unfold dict_at at 1. by rewrite (Hu s Hnew).
  - intros p Hpout. rewrite (take_S_r _ _ _ Hs) in Hpout.
    apply not_elem_of_app in Hpout as [Hp1 Hp2].
    rewrite list_elem_of_singleton in Hp2.
    unfold h2, set_dict. simpl. rewrite lookup_insert_ne by done. by apply Hu.
  - exists h'. split; [|done]. exact Hrun.
Qed.

(** [list_clients] up to the point where the old collection is found not
    to be empty. *)
Lemma list_clients_prefix G fmts c w ns h1 :
  let argv := Server_argv (w_self w)
                ["list-clients"; "-F" +:+ join TAB (tmux_format <$> fmts)] in
  let news := parse (py_iter (stdout (tmux_bin (w_environ w) (w_calls w) argv))) fmts in
  G !! "CLIENT_FORMATS" = Some (GStrList fmts) →
  _clients (w_self w) = Some c →
  new_dicts news (w_heap w) = (ns, h1) →
  list_at h1 c ≠ [] →
  list_clients tmux_bin G w =
    (new <- index_new ns ∅ ;;
     h <- get_heap ;;
     let old := index_old h (list_at h c) in
     let created := dom new ∖ dom old in
     let deleted := dom old ∖ dom new in
     let intersect := dom new ∩ dom old in
     let diff := clients_diff h new old intersect in
     sync_loop (length (list_at h c)) 0 c deleted intersect diff ;;;
     for_each (omap (λ k, new !! k) (elements created)) (add_client c) ;;;
     ret c) (with_heap (called w argv) h1).
Proof.
  intros argv news HG Hc E Hne. unfold list_clients.
  unfold bind at 1. unfold global_fields. rewrite HG. unfold ret at 1.
  unfold bind at 1. rewrite Server_tmux_run. fold argv.
  unfold bind at 1. unfold alloc_dicts.
  cbn [w_heap w_self w_environ w_calls called]. fold news. rewrite E.
  unfold bind at 1. unfold get_self at 1. cbn [w_self]. rewrite Hc.
  unfold bind at 1. unfold get_heap at 1. cbn [w_heap].
  by rewrite (bool_decide_eq_false_2 _ Hne).
Qed.

Lemma omap_lookup_length {K} `{Countable K} {V} (m : gmap K V) (ks : list K) :
  (∀ k, k ∈ ks → is_Some (m !! k)) →
  length (omap (λ k, m !! k) ks) = length ks.
Proof.
  induction ks as [|k ks IH]; intros Hk; [done|]. simpl.
  destruct (Hk k) as [v ->]; [by left|]. simpl. f_equal.
  apply IH. intros k' Hk'. apply Hk. by right.
Qed.

(** C2, as amended: take a client refresh that reaches the reconciliation
    ([CLIENT_FORMATS] bound, [_clients] set to a non-empty collection of
    existing records, every new row with its [client_tty]) and in which no
    key is only in the old set. It returns the same collection object.
    Every existing record keeps its position and its identity, and its
    content becomes its old content updated with the pairs of the new record
    of the same key that the old record of that key does not have (the
    difference new minus old, not the symmetric difference). After the
    existing records come the appended ones: new objects, one for each key
    that is only in the new set, holding the new record of that key. *)
Theorem list_clients_patches_and_appends
    (G : gmap string gval) (fmts : list string) (c : loc) (w : world) :
  let argv := Server_argv (w_self w)
                ["list-clients"; "-F" +:+ join TAB (tmux_format <$> fmts)] in
  let news := parse (py_iter (stdout (tmux_bin (w_environ w) (w_calls w) argv))) fmts in
  let olds := list_at (w_heap w) c in
  let old_recs := records_at (w_heap w) c in
  let key p := dict_at (w_heap w) p !! "client_tty" in
  let out := list_clients tmux_bin G w in
  G !! "CLIENT_FORMATS" = Some (GStrList fmts) →
  _clients (w_self w) = Some c →
  olds ≠ [] →
  (∀ p, p ∈ olds → is_Some (h_dicts (w_heap w) !! p)) →
  (∀ d, d ∈ news → is_Some (d !! "client_tty")) →
  dom (by_key old_recs) ⊆ dom (by_key news) →
  out.1 = Ok c ∧
  w_self out.2 = w_self w ∧
  (∀ i p, olds !! i = Some p →
     list_at (w_heap out.2) c !! i = Some p ∧
     ∃ n o, by_key news !! key p = Some n ∧
            by_key old_recs !! key p = Some o ∧
            dict_at (w_heap out.2) p
              = dict_update (dict_at (w_heap w) p) (dict_diff n o)) ∧
  ∃ appended,
    list_at (w_heap out.2) c = olds ++ appended ∧
    length appended = size (dom (by_key news) ∖ dom (by_key old_recs)) ∧
    (∀ l, l ∈ appended → h_dicts (w_heap w) !! l = None) ∧
    (∀ d, d ∈ dict_at (w_heap out.2) <$> appended ↔
          ∃ k, by_key news !! k = Some d ∧ by_key old_recs !! k = None).
Proof.
  intros argv news olds old_recs key out HG Hc Hne Hwf Hkeys Hsub.
  destruct (new_dicts news (w_heap w)) as [ns h1] eqn:E.
  destruct (new_dicts_spec _ _ _ _ E) as (Hl1 & _ & Hnd & Hfresh & Hframe).
  pose proof (new_dicts_contents _ _ _ _ E) as Hnews.
  assert (list_at h1 c = olds) as Holds.
  { unfold olds, list_at. by rewrite Hl1. }
  assert (∀ p, p ∈ olds → p ∉ ns) as Hdisj.
  { intros p Hp Hn. destruct (Hwf p Hp) as [d Hd].
    rewrite (Hfresh p Hn) in Hd. done. }
  assert (∀ p, p ∈ olds → dict_at h1 p = dict_at (w_heap w) p) as Hsame.
  { intros p Hp. unfold dict_at. by rewrite (Hframe p (Hdisj p Hp)). }
  assert (dict_at h1 <$> olds = old_recs) as Holdrecs.
  { unfold old_recs, records_at. fold olds. apply list_fmap_ext.
    intros i p Hp. apply Hsame. by eapply list_elem_of_lookup_2. }
  assert (out = (new <- index_new ns ∅ ;;
     h <- get_heap ;;
     let old := index_old h (list_at h c) in
     let created := dom new ∖ dom old in
     let deleted := dom old ∖ dom new in
     let intersect := dom new ∩ dom old in
     let diff := clients_diff h new old intersect in
     sync_loop (length (list_at h c)) 0 c deleted intersect diff ;;;
     for_each (omap (λ k, new !! k) (elements created)) (add_client c) ;;;
     ret c) (with_heap (called w argv) h1)) as Hout.
  { unfold out. apply (list_clients_prefix G fmts c w ns h1); try done.
    by rewrite Holds. }
  set (w2 := called w argv) in *.
  assert (∀ n, n ∈ ns → is_Some (dict_at h1 n !! "client_tty")) as Hnk.
  { intros n Hn. apply Hkeys. rewrite <- Hnews. by apply list_elem_of_fmap_2. }
  rewrite (bind_ok _ _ _ _ _ (index_new_run ns ∅ (with_heap w2 h1) Hnk)) in Hout.
  change (foldl _ ∅ _) with (index_old h1 ns) in Hout.
  rewrite (bind_ok _ _ _ _ _ (get_heap_run _)) in Hout.
  cbn [w_heap with_heap] in Hout. cbv zeta in Hout. rewrite Holds in Hout.
  set (newm := index_old h1 ns) in *.
  set (old := index_old h1 olds) in *.
  assert (dom newm = dom (by_key news)) as Hdn.
  { unfold newm. by rewrite index_old_dom, Hnews. }
  assert (dom old = dom (by_key old_recs)) as Hdo.
  { unfold old. by rewrite index_old_dom, Holdrecs. }
  set (created := dom newm ∖ dom old) in *.
  set (deleted := dom old ∖ dom newm) in *.
  set (intersect := dom newm ∩ dom old) in *.
  set (diff := clients_diff h1 newm old intersect) in *.
  assert (∀ k, rec_of h1 newm k = default ∅ (by_key news !! k)) as Hrn.
  { intros k. unfold newm. by rewrite rec_of_index_old, Hnews. }
  assert (∀ k, rec_of h1 old k = default ∅ (by_key old_recs !! k)) as Hro.
  { intros k. unfold old. by rewrite rec_of_index_old, Holdrecs. }
  assert (∀ k, k ∈ intersect →
            diff !! k = Some (dict_diff (default ∅ (by_key news !! k))
                                        (default ∅ (by_key old_recs !! k))))
    as Hdiff.
  { intros k Hk. unfold diff, clients_diff. apply lookup_set_to_map.
    - by intros y y' _ _.
    - exists k. split; [done|]. by rewrite Hrn, Hro. }
  assert (∀ p, p ∈ olds → dict_at h1 p !! "client_tty" ∈ intersect
                           ∧ dict_at h1 p !! "client_tty" ∉ deleted) as Hcommon.
  { intros p Hp.
    assert (dict_at h1 p !! "client_tty" ∈ dom old) as Hin.
    { rewrite Hdo, <- Holdrecs. apply by_key_dom. exists (dict_at h1 p).
      split; [by apply list_elem_of_fmap_2 | done]. }
    assert (dict_at h1 p !! "client_tty" ∈ dom newm) as Hin'.
    { rewrite Hdn. apply Hsub. by rewrite <- Hdo. }
    split.
    - by apply elem_of_intersection.
    - intros [_ Hd]%elem_of_difference. by apply Hd. }
  destruct (sync_loop_patches c deleted intersect diff h1 w2) with
    (fuel := length olds) (i := 0) (h := h1) as (h2 & Hloop & Hl2 & Hpatched & Hrest).
  - rewrite Holds. exact Hcommon.
  - intros k Hk. eexists. split; [by apply Hdiff|].
    apply dict_diff_same_key.
    apply elem_of_intersection in Hk as [Hk1 Hk2].
    rewrite Hdn in Hk1. rewrite Hdo in Hk2.
    apply elem_of_dom in Hk1 as [n Hn]. apply elem_of_dom in Hk2 as [o Ho].
    rewrite Hn, Ho. simpl.
    apply by_key_lookup in Hn as [-> _]. by apply by_key_lookup in Ho as [-> _].
  - rewrite Holds. lia.
  - done.
  - intros p Hp. by apply elem_of_nil in Hp.
  - done.
  - rewrite (bind_ok _ _ _ _ _ Hloop) in Hout.
    set (appended := omap (λ k, newm !! k) (elements created)) in *.
    assert (∀ n, n ∈ appended → n ∈ ns ∧
              ∃ k, k ∈ created ∧ newm !! k = Some n) as Happ.
    { intros n (k & Hk & Hn)%list_elem_of_omap.
      apply elem_of_elements in Hk. split; [|by exists k].
      by apply index_old_elem in Hn as [? _]. }
    assert (∀ n, n ∈ ns → dict_at h2 n = dict_at h1 n) as Hnew2.
    { intros n Hn. unfold dict_at. rewrite Hrest; [done|].
      rewrite Holds. intros Ho. by apply (Hdisj n). }
    destruct (for_each_add_run c appended w2 h2) as (h3 & Hadd & Hl3 & Hd3 & _).
    { intros n [Hn _]%Happ. rewrite Hnew2 by done. by apply Hnk. }
    rewrite (bind_ok _ _ _ _ _ Hadd) in Hout. unfold ret in Hout.
    assert (list_at h2 c = olds) as Holds2.
    { unfold list_at. rewrite Hl2. exact Holds. }
    rewrite Holds2 in Hl3.
    assert (∀ l, dict_at h3 l = dict_at h2 l) as Hd32.
    { intros l. unfold dict_at. by rewrite Hd3. }
    rewrite Hout. cbn [fst snd w_self w_heap with_heap]. split; [done|].
    split; [done|]. split.
    + intros i p Hi.
      assert (p ∈ olds) as Hp by (by eapply list_elem_of_lookup_2).
      split; [rewrite Hl3; by apply lookup_app_l_Some|].
      destruct (Hcommon p Hp) as [Hki _]. rewrite (Hsame p Hp) in Hki.
      fold (key p) in Hki.
      pose proof Hki as Hki'.
      apply elem_of_intersection in Hki' as [Hk1 Hk2].
      rewrite Hdn in Hk1. rewrite Hdo in Hk2.
      apply elem_of_dom in Hk1 as [n Hn]. apply elem_of_dom in Hk2 as [o Ho].
      exists n, o. split; [done|]. split; [done|].
      rewrite Hd32, Hpatched by (by rewrite Holds).
      rewrite (Hsame p Hp). fold (key p).
      by rewrite (Hdiff _ Hki), Hn, Ho.
    + exists appended. split; [done|]. split; [|split].
      * unfold appended. rewrite <- Hdn, <- Hdo. fold created.
        apply omap_lookup_length. intros k Hk%elem_of_elements.
        apply elem_of_dom. unfold created in Hk.
        by apply elem_of_difference in Hk as [? _].
      * intros l [Hl _]%Happ. by apply Hfresh.
      * intros d. rewrite list_elem_of_fmap. split.
        -- intros (n & -> & Hn). destruct (Happ n Hn) as (Hns & k & Hk & Hkn).
           exists k. rewrite Hd32, (Hnew2 n Hns). split.
           ++ rewrite <- Hnews. unfold newm in Hkn.
              rewrite <- index_old_records, lookup_fmap, Hkn. done.
           ++ apply not_elem_of_dom. rewrite <- Hdo.
              by apply elem_of_difference in Hk as [_ ?].
        -- intros (k & Hk & Hko).
           rewrite <- Hnews, <- index_old_records, lookup_fmap in Hk.
           fold newm in Hk.
           destruct (newm !! k) as [n|] eqn:Hn; simplify_eq/=.
           assert (n ∈ appended) as Hin.
           { apply list_elem_of_omap. exists k. split; [|done].
             apply elem_of_elements, elem_of_difference. split.
             - apply elem_of_dom. by eexists.
             - rewrite Hdo. by apply not_elem_of_dom. }
           exists n. split; [|done].
           destruct (Happ n Hin) as [Hns _]. by rewrite Hd32, (Hnew2 n Hns).
Qed.

End Clients.

(** ** Concrete runs *)

(** C2, as stated, fails on the specification's own example: for the old
    record [{client_tty: /dev/ttys1, w: 80}] and the polled row
    [/dev/ttys1 100], the patch that line 281 computes and line 300 applies
    is [{w: 100}], the pairs of the new record that the old one lacks. The
    symmetric difference of the two sets of pairs also holds the old pair
    [(w, 80)], so the patch is not the symmetric difference. *)
Lemma client_patch_is_not_symmetric_difference :
  let o := client_A in
  let n := parse_line client_fields (row "/dev/ttys1" "100") in
  dict_diff n o = {[ "w" := "100" ]} ∧
  sym_diff (items o) (items n) = {[ ("w", "80"); ("w", "100") ]} ∧
  items (dict_diff n o) ≠ sym_diff (items o) (items n) ∧
  (let out := list_clients (polling [row "/dev/ttys1" "100"])
                globals_with_client_formats (client_world [client_A]) in
   out.1 = Ok 4%positive ∧
   clients_of out.2
     = Some ([1%positive],
             [ {[ "client_tty" := "/dev/ttys1"; "w" := "100" ]} ])).
Proof.
  cbv zeta.
  assert (dict_diff (parse_line client_fields (row "/dev/ttys1" "100")) client_A
          = {[ "w" := "100" ]}) as Hd by compute_done.
  assert (sym_diff (items client_A)
            (items (parse_line client_fields (row "/dev/ttys1" "100")))
          = {[ ("w", "80"); ("w", "100") ]}) as Hs by compute_done.
  split; [exact Hd|]. split; [exact Hs|]. split; [|compute_done].
  rewrite Hd, Hs. intros Heq.
  assert (("w", "80") ∈ items ({[ "w" := "100" ]} : gmap string string)) as Hin.
  { rewrite Heq. apply elem_of_union. left. by apply elem_of_singleton. }
  apply items_spec in Hin. rewrite lookup_singleton_eq in Hin. by inversion Hin.
Qed.

(** The first example of the specification: the existing record is updated
    in place and stays the same object. *)
Example list_clients_updates_in_place :
  let w := client_world [client_A] in
  let out := list_clients (polling [row "/dev/ttys1" "100"])
               globals_with_client_formats w in
  clients_of w = Some ([1%positive], [client_A]) ∧
  clients_of out.2
    = Some ([1%positive], [ {[ "client_tty" := "/dev/ttys1"; "w" := "100" ]} ]).
Proof. cbv zeta. compute_done. Qed.

(** The second example of the specification: the record that is gone is
    removed, the other stays, once. *)
Example list_clients_removes_gone :
  let w := client_world [client_A; client_B] in
  let out := list_clients (polling [row "/dev/ttys2" "80"])
               globals_with_client_formats w in
  clients_of w = Some ([1%positive; 2%positive], [client_A; client_B]) ∧
  clients_of out.2 = Some ([2%positive], [client_B]).
Proof. cbv zeta. compute_done. Qed.

(** Removing an element while the loop of lines 292-300 iterates over the
    same list makes the iterator step over the next element: of two records
    that are both gone, the second stays in the collection. *)
Example list_clients_skips_after_removal :
  let w := client_world [client_A; client_B] in
  let out := list_clients (polling [row "/dev/ttys3" "120"])
               globals_with_client_formats w in
  out.1 = Ok 4%positive ∧
  clients_of out.2 = Some ([2%positive; 3%positive], [client_B; client_C]).
Proof. cbv zeta. compute_done. Qed.

(** For the same reason a changed record that follows a removed one is not
    patched. *)
Example list_clients_skips_patch_after_removal :
  let w := client_world [client_A; client_B] in
  let out := list_clients (polling [row "/dev/ttys2" "100"])
               globals_with_client_formats w in
  out.1 = Ok 4%positive ∧
  clients_of out.2 = Some ([2%positive], [client_B]).
Proof. cbv zeta. compute_done. Qed.

(** An attribute that the new row no longer carries stays in the record. *)
Example list_clients_keeps_stale_attribute :
  let w := client_world [client_A] in
  let out := list_clients (polling [row "/dev/ttys1" ""])
               globals_with_client_formats w in
  clients_of out.2 = Some ([1%positive], [client_A]).
Proof. cbv zeta. compute_done. Qed.

(** The refreshes of C5 on a process that lists one session, then two
    others: the collection ends with the two. *)
Lemma refresh_sessions_discards_previous_witness :
  let w1 := (_update_sessions session_fields two_polls plain_world).2 in
  let w2 := (_update_sessions session_fields two_polls w1).2 in
  records_at (w_heap w1) (_sessions (w_self w1))
    = parse [row "work" "$1"] session_fields ∧
  records_at (w_heap w2) (_sessions (w_self w2))
    = parse [row "mail" "$2"; row "logs" "$3"] session_fields.
Proof.
  cbv zeta. split; [compute_done|].
  refine (proj1 (proj2 (refresh_sessions_discards_previous
                          session_fields two_polls plain_world _ _)));
    compute_done.
Defined.

(** The reconciliation of C2 on one existing client that is polled again
    with another width, together with a client not seen before. *)
Lemma list_clients_patches_and_appends_witness :
  let w := client_world [client_A] in
  let out := list_clients (polling [row "/dev/ttys1" "100"; row "/dev/ttys2" "80"])
               globals_with_client_formats w in
  _clients (w_self w) = Some 4%positive ∧
  out.1 = Ok 4%positive ∧
  w_self out.2 = w_self w.
Proof.
  cbv zeta. split; [compute_done|].
  pose proof (list_clients_patches_and_appends
                (polling [row "/dev/ttys1" "100"; row "/dev/ttys2" "80"])
                globals_with_client_formats client_fields 4%positive
                (client_world [client_A])) as H.
  cbv zeta in H. destruct H as (H1 & H2 & _).
  - compute_done.
  - compute_done.
  - compute_done.
  - apply Forall_forall. compute_done.
  - apply Forall_forall. compute_done.
  - compute_done.
  - split; [exact H1 | exact H2].
Defined.

(** The failing create of C1 inside a tmux session. *)
Lemma new_session_error_leaves_marker_cleared_witness :
  let out := new_session session_fields refusing server_py_globals
               "foo" false false nested_world in
  w_environ nested_world !! "TMUX" = Some "/tmp/tmux-1000/default,4242,0" ∧
  out.1 = Raise (Exception "create failed") ∧
  w_environ out.2 !! "TMUX" = None.
Proof.
  cbv zeta. split; [compute_done|].
  pose proof (new_session_error_leaves_marker_cleared
                session_fields refusing server_py_globals "foo" false false
                nested_world "/tmp/tmux-1000/default,4242,0") as H.
  cbv zeta in H. destruct H as (H1 & H2 & _); [compute_done..|].
  split; [exact H1 | exact H2].
Defined.

(** The existing session of C3. *)
Lemma new_session_existing_raises_name_error_witness :
  (has_session agreeable "foo" plain_world).1 = Ok true ∧
  new_session session_fields agreeable server_py_globals
    "foo" false false plain_world
  = (Raise (NameError "TmuxSessionExists"),
     called plain_world ["has-session"; "-tfoo"]).
Proof.
  split; [compute_done|].
  apply (new_session_existing_raises_name_error
           session_fields agreeable "foo" false plain_world).
  compute_done.
Defined.

(** Both cases of C7: a kill that is refused, and one that is followed by
    the refresh. *)
Lemma kill_session_raises_or_refreshes_witness :
  (kill_session session_fields agreeable "gone" plain_world).1
    = Raise (Exception "session not found: gone") ∧
  records_at (w_heap (kill_session session_fields agreeable "foo" plain_world).2)
    (_sessions (w_self plain_world))
    = parse [row "foo" "$1"; row "bar" "$2"] session_fields.
Proof.
  split.
  - pose proof (kill_session_raises_or_refreshes
                  session_fields agreeable "gone" plain_world) as H.
    cbv zeta in H. destruct H as (H & _). apply H. compute_done.
  - pose proof (kill_session_raises_or_refreshes
                  session_fields agreeable "foo" plain_world) as H.
    cbv zeta in H. destruct H as (_ & _ & H).
    destruct H as (_ & _ & H); [compute_done|].
    destruct H as [_ H]; [compute_done|]. exact H.
Defined.

(** * Further properties *)

(** ** Rows and records *)

Lemma append_nil_r (s : string) : s +:+ "" = s.
Proof. induction s as [|a s IH]; [done|]. by rewrite append_cons, IH. Qed.

Lemma append_assoc (a b c : string) : (a +:+ b) +:+ c = a +:+ (b +:+ c).
Proof. induction a as [|x a IH]; [done|]. by rewrite !append_cons, IH. Qed.

Lemma split_app sep a b :
  split sep (a +:+ String sep b) = split sep a ++ split sep b.
Proof.
  induction a as [|c a IH].
  - rewrite append_nil. simpl. by rewrite decide_True.
  - rewrite append_cons. simpl. case_decide.
    + by rewrite IH.
    + rewrite IH. pose proof (split_nonempty sep a).
      by destruct (split sep a).
Qed.

Lemma split_clean sep s : ¬ has_char sep s → split sep s = [s].
Proof.
  induction s as [|c s IH]; [done|]. simpl. intros Hc.
  rewrite decide_False by (intros ->; apply Hc; by left).
  rewrite IH; [done|]. intros ?. apply Hc. by right.
Qed.

(** Splitting a joined row gives its values back when no value holds the
    separator. *)
Lemma split_join sep vs :
  vs ≠ [] → Forall (λ v, ¬ has_char sep v) vs →
  split sep (join (String sep "") vs) = vs.
Proof.
  induction vs as [|x vs IH]; [done|]. intros _ Hall.
  apply Forall_cons in Hall as [Hx Hall]. destruct vs as [|y vs].
  - simpl. by apply split_clean.
  - rewrite join_cons.
    change (x +:+ String sep "" +:+ join (String sep "") (y :: vs))
      with (x +:+ String sep (join (String sep "") (y :: vs))).
    rewrite split_app, split_clean by done. rewrite IH by done. done.
Qed.

Lemma zip_app_ge {A B} (l : list A) (k1 k2 : list B) :
  length l ≤ length k1 → zip l (k1 ++ k2) = zip l k1.
Proof.
  revert k1. induction l as [|x l IH]; intros k1 Hlen; [done|].
  destruct k1 as [|y k1]; simpl in *; [lia|]. f_equal. apply IH. lia.
Qed.

Lemma parse_line_truncates fields line extra :
  length fields ≤ length (split tab line) →
  parse_line fields (line +:+ TAB +:+ extra) = parse_line fields line.
Proof.
  intros Hlen. unfold parse_line.
  change (line +:+ TAB +:+ extra) with (line +:+ String tab extra).
  by rewrite split_app, zip_app_ge.
Qed.

(** X1: columns beyond the declared fields are dropped without notice: a
    line that has at least as many tab-separated tokens as there are fields
    gives the same record whatever follows one more tab. *)
Theorem parse_line_ignores_extra_columns (fields : list string)
    (line extra : string) :
  length fields ≤ length (split tab line) →
  parse_line fields (line +:+ TAB +:+ extra) = parse_line fields line ∧
  parse [line +:+ TAB +:+ extra] fields = parse [line] fields.
Proof.
  intros Hlen. unfold parse. simpl.
  by rewrite parse_line_truncates.
Qed.

(** X2: the keys of a parsed record are among the fields that have a column
    in the line, and its values are non-empty tokens of the line, free of
    tabs. *)
Theorem parse_line_keys_and_values (fields : list string) (line : string) :
  dom (parse_line fields line)
    ⊆ list_to_set (take (length (split tab line)) fields) ∧
  map_Forall (λ _ v, v ≠ "" ∧ v ∈ split tab line ∧ ¬ has_char tab v)
    (parse_line fields line).
Proof.
  split.
  - intros k [v Hk]%elem_of_dom.
    apply parse_line_lookup in Hk as (_ & j & Hf & Ht & _).
    apply elem_of_list_to_set, list_elem_of_lookup. exists j.
    rewrite lookup_take_lt; [done|]. by eapply lookup_lt_Some.
  - intros k v Hk. apply parse_line_lookup in Hk as (Hv & j & Hf & Ht & _).
    assert (v ∈ split tab line) as Hin by (by eapply list_elem_of_lookup_2).
    split; [done|]. split; [done|]. by eapply split_tokens_clean.
Qed.

(** X3: a row made by joining values with tabs parses back to the values:
    with distinct field names and values that hold no tab, the field at a
    position is bound to the value at that position, and is absent when
    that value is empty. *)
Theorem parse_line_of_joined_row (fields vs : list string)
    (i : nat) (f v : string) :
  NoDup fields →
  Forall (λ x, ¬ has_char tab x) vs →
  fields !! i = Some f →
  vs !! i = Some v →
  parse_line fields (join TAB vs) !! f = if decide (v = "") then None else Some v.
Proof.
  intros Hnd Hclean Hf Hv.
  assert (split tab (join TAB vs) = vs) as Hsplit.
  { apply split_join; [|done]. intros ->. by rewrite lookup_nil in Hv. }
  case_decide as Hempty.
  - destruct (parse_line fields (join TAB vs) !! f) as [v'|] eqn:E; [|done].
    apply parse_line_lookup in E as (Hne & j & Hfj & Htj & _).
    rewrite Hsplit in Htj.
    assert (j = i) as -> by (by eapply NoDup_lookup).
    congruence.
  - apply parse_line_lookup. split; [done|]. exists i. rewrite Hsplit.
    split; [done|]. split; [done|]. intros j Hlt Hfj.
    assert (j = i) by (by eapply NoDup_lookup). lia.
Qed.

Lemma join_with_trailing (g : string → string) (fs : list string) :
  fs ≠ [] →
  join "" ((λ f, g f +:+ TAB) <$> fs) = join TAB (g <$> fs) +:+ TAB.
Proof.
  induction fs as [|x fs IH]; [done|]. intros _. destruct fs as [|y fs].
  - done.
  - rewrite !fmap_cons, !join_cons. rewrite !fmap_cons in IH.
    rewrite IH by done. rewrite append_nil.
    by rewrite !append_assoc.
Qed.

(** X4: the format that [_list_panes] asks for is the tab-joined format of
    the pane fields followed by one more tab, so every pane row ends in a
    tab; and a row with a column for every pane field parses to the same
    record with or without that trailing tab. *)
Theorem list_panes_format_has_trailing_tab (PANE_FORMATS : list string) :
  list_panes_args PANE_FORMATS
    = [ "list-panes"; "-a";
        "-F" +:+ join TAB (tmux_format <$> pformats PANE_FORMATS) +:+ TAB ] ∧
  ∀ line,
    length (pformats PANE_FORMATS) ≤ length (split tab line) →
    parse_line (pformats PANE_FORMATS) (line +:+ TAB)
      = parse_line (pformats PANE_FORMATS) line.
Proof.
  split.
  - unfold list_panes_args. do 3 f_equal.
    apply (f_equal (String.append "-F")).
    rewrite <- (join_with_trailing tmux_format) by done.
    apply (f_equal (join "")), list_fmap_ext. intros _ f _.
    unfold tmux_format. by rewrite !append_assoc.
  - intros line Hlen. rewrite <- (append_nil_r (line +:+ TAB)).
    rewrite append_assoc. by apply parse_line_truncates.
Qed.

(** ** Construction, invocation and the full-replace refreshes *)

Section MoreServerProperties.

Variables SESSION_FORMATS WINDOW_FORMATS PANE_FORMATS : list string.
Variable tmux_bin :
  gmap string string → list (list string) → list string → response.

Local Abbreviation answer w argv := (tmux_bin (w_environ w) (w_calls w) argv).

Lemma flag_truthy prefix v : v ≠ "" → flag prefix (Some v) = [prefix +:+ v].
Proof. intros Hv. unfold flag. by rewrite (proj2 (truthy_true v) Hv). Qed.

Lemma flag_falsy prefix o : opt_truthy o = false → flag prefix o = [].
Proof. destruct o as [v|]; [|done]. simpl. unfold flag. by intros ->. Qed.

Lemma flag_kept prefix o :
  flag prefix (if opt_truthy o then o else None) = flag prefix o.
Proof.
  destruct (opt_truthy o) eqn:E; [done|]. by rewrite (flag_falsy prefix o E).
Qed.

Lemma Server_init_self sn sp cf env :
  w_self (Server_init sn sp cf env) =
    {| socket_name := if opt_truthy sn then sn else None;
       socket_path := if opt_truthy sp then sp else None;
       config_file := if opt_truthy cf then cf else None;
       _windows := 1%positive; _panes := 2%positive; _sessions := 3%positive;
       _clients := None |}.
Proof. reflexivity. Qed.

(** X5: a server constructed with a socket name, a socket path and a
    configuration file hands every subcommand to [tmux] behind the flags
    [-f], [-S], [-L], in this order; one constructed with none of them, or
    with empty strings, hands over the subcommand alone. *)
Theorem Server_tmux_puts_flags_first (sn sp cf : string)
    (env : gmap string string) (args : list string) :
  sn ≠ "" → sp ≠ "" → cf ≠ "" →
  (let w := Server_init (Some sn) (Some sp) (Some cf) env in
   Server_tmux tmux_bin args w
   = (Ok (answer w (["-f" +:+ cf; "-S" +:+ sp; "-L" +:+ sn] ++ args)),
      called w (["-f" +:+ cf; "-S" +:+ sp; "-L" +:+ sn] ++ args))) ∧
  (∀ o1 o2 o3,
     opt_truthy o1 = false → opt_truthy o2 = false → opt_truthy o3 = false →
     let w := Server_init o1 o2 o3 env in
     Server_tmux tmux_bin args w = (Ok (answer w args), called w args)).
Proof.
  intros Hsn Hsp Hcf. split.
  - cbv zeta. rewrite Server_tmux_run.
    assert (Server_argv (w_self (Server_init (Some sn) (Some sp) (Some cf) env)) args
            = ["-f" +:+ cf; "-S" +:+ sp; "-L" +:+ sn] ++ args) as ->; [|done].
    rewrite Server_init_self. unfold Server_argv.
    cbn [socket_name socket_path config_file].
    rewrite !flag_kept, !flag_truthy by done. done.
  - intros o1 o2 o3 H1 H2 H3. cbv zeta. rewrite Server_tmux_run.
    assert (Server_argv (w_self (Server_init o1 o2 o3 env)) args = args)
      as ->; [|done].
    rewrite Server_init_self. unfold Server_argv.
    cbn [socket_name socket_path config_file].
    rewrite !flag_kept, !flag_falsy by done. done.
Qed.

Lemma refresh_outcome_frames op r argv fields attr w :
  op w = refresh_outcome r argv fields (attr (w_self w)) w →
  refresh_frames op argv attr w.
Proof.
  intros Hop. unfold refresh_frames. rewrite Hop. unfold refresh_outcome.
  destruct (truthy (stderr r)); [done|].
  destruct (new_dicts _ _) as [ls h] eqn:E.
  destruct (new_dicts_spec _ _ _ _ E) as (Hl & _ & _ & Hfresh & Hframe).
  simpl. split; [done|]. split; [done|]. split.
  - intros c Hc. rewrite lookup_insert_ne by done. by rewrite Hl.
  - intros l [d Hd]. apply Hframe. intros Hin.
    rewrite (Hfresh l Hin) in Hd. done.
Qed.

(** X6: a refresh of the sessions, of the windows or of the panes touches
    nothing but its own collection: the environment stays, its subcommand is
    the only one issued, the other list objects keep their contents, and no
    record object that existed before is changed, so a record taken from a
    collection before a refresh keeps the content it had. *)
Theorem refresh_touches_only_its_collection (w : world) :
  refresh_frames (_update_sessions SESSION_FORMATS tmux_bin)
    (Server_argv (w_self w) (list_sessions_args SESSION_FORMATS)) _sessions w ∧
  refresh_frames (_update_windows WINDOW_FORMATS tmux_bin)
    (Server_argv (w_self w) (list_windows_args WINDOW_FORMATS)) _windows w ∧
  refresh_frames (_update_panes PANE_FORMATS tmux_bin)
    (Server_argv (w_self w) (list_panes_args PANE_FORMATS)) _panes w.
Proof.
  split; [|split].
  - eapply refresh_outcome_frames, update_sessions_run.
  - eapply refresh_outcome_frames, update_windows_run.
  - eapply refresh_outcome_frames, update_panes_run.
Qed.

(** X7: the constructor gives the server three distinct, empty list
    objects and no [_clients]; on such a server a refresh of the sessions
    leaves the windows and the panes empty. *)
Theorem Server_init_collections_are_distinct
    (sn sp cf : option string) (env : gmap string string) :
  let w := Server_init sn sp cf env in
  let self := w_self w in
  let after := (_update_sessions SESSION_FORMATS tmux_bin w).2 in
  NoDup [_windows self; _panes self; _sessions self] ∧
  list_at (w_heap w) (_windows self) = [] ∧
  list_at (w_heap w) (_panes self) = [] ∧
  list_at (w_heap w) (_sessions self) = [] ∧
  _clients self = None ∧
  w_environ w = env ∧
  w_calls w = [] ∧
  list_at (w_heap after) (_windows self) = [] ∧
  list_at (w_heap after) (_panes self) = [].
Proof.
  intros w self after.
  assert (_windows self = 1%positive ∧ _panes self = 2%positive
          ∧ _sessions self = 3%positive) as (Hw & Hp & Hs) by done.
  assert (list_at (w_heap w) (_windows self) = []) as Hlw by done.
  assert (list_at (w_heap w) (_panes self) = []) as Hlp by done.
  split. { rewrite Hw, Hp, Hs. compute_done. }
  split; [done|]. split; [done|]. split; [done|]. split; [done|].
  split; [done|]. split; [done|].
  pose proof (refresh_outcome_frames _ _ _ _ _sessions w
                (update_sessions_run SESSION_FORMATS tmux_bin w))
    as (_ & _ & Hlists & _).
  fold after in Hlists. unfold list_at.
  rewrite !Hlists; [by split | |].
  - fold self. rewrite Hp, Hs. done.
  - fold self. rewrite Hw, Hs. done.
Qed.

Lemma sessions_run w :
  sessions SESSION_FORMATS tmux_bin w =
    match _update_sessions SESSION_FORMATS tmux_bin w with
    | (Ok _, w') => (Ok (_sessions (w_self w')), w')
    | (Raise e, w') => (Raise e, w')
    end.
Proof.
  unfold sessions, bind.
  by destruct (_update_sessions SESSION_FORMATS tmux_bin w) as [[[]|e] w'].
Qed.

(** X8: reading the property [sessions] refreshes and then hands out the
    collection object itself, the same object at every read: after two
    reads that both succeed, the list obtained from the first read holds
    the records of the second poll. *)
Theorem sessions_hands_out_the_live_list (w0 : world) :
  let argv := Server_argv (w_self w0) (list_sessions_args SESSION_FORMATS) in
  let c := _sessions (w_self w0) in
  let r1 := answer w0 argv in
  let w1 := (sessions SESSION_FORMATS tmux_bin w0).2 in
  let r2 := answer w1 argv in
  let w2 := (sessions SESSION_FORMATS tmux_bin w1).2 in
  stderr r1 = "" →
  stderr r2 = "" →
  (sessions SESSION_FORMATS tmux_bin w0).1 = Ok c ∧
  (sessions SESSION_FORMATS tmux_bin w1).1 = Ok c ∧
  records_at (w_heap w1) c = parse (py_iter (stdout r1)) SESSION_FORMATS ∧
  records_at (w_heap w2) c = parse (py_iter (stdout r2)) SESSION_FORMATS.
Proof.
  intros argv c r1 w1 r2 w2 H1 H2.
  pose proof (sessions_run w0) as S1.
  pose proof (update_sessions_run SESSION_FORMATS tmux_bin w0) as R1.
  cbv zeta in R1. fold argv c r1 in R1.
  destruct (refresh_outcome_ok r1 argv SESSION_FORMATS c w0 H1)
    as (ls1 & h1 & E1 & O1 & Hrec1).
  rewrite O1 in R1. rewrite R1 in S1. simpl in S1. fold c in S1.
  assert (w1 = with_heap (called w0 argv) (set_list c ls1 h1)) as Hw1.
  { unfold w1. by rewrite S1. }
  assert (w_self w1 = w_self w0) as Hs1 by (by rewrite Hw1).
  pose proof (sessions_run w1) as S2.
  pose proof (update_sessions_run SESSION_FORMATS tmux_bin w1) as R2.
  cbv zeta in R2. rewrite Hs1 in R2. fold argv c r2 in R2.
  destruct (refresh_outcome_ok r2 argv SESSION_FORMATS c w1 H2)
    as (ls2 & h2 & E2 & O2 & Hrec2).
  rewrite O2 in R2. rewrite R2 in S2. simpl in S2. rewrite Hs1 in S2.
  fold c in S2.
  split; [by rewrite S1|]. split; [by rewrite S2|]. split.
  - rewrite Hw1. exact Hrec1.
  - unfold w2. rewrite S2. exact Hrec2.
Qed.

End MoreServerProperties.

(** ** Attached sessions and the plain session commands *)

(** The loop keeps, in order, the records whose [session_attached] is
    ['1']. *)
Lemma attached_loop_filter h l acc :
  attached_loop h l acc
  = acc ++ filter (λ s, dict_at h s !! "session_attached" = Some "1") l.
Proof.
  revert acc. induction l as [|s l IH]; intros acc.
  - by rewrite app_nil_r.
  - simpl. destruct (dict_at h s !! "session_attached") as [v|] eqn:E.
    + case_decide as Hv.
      * subst v. rewrite IH, filter_cons_True by done.
        by rewrite <- app_assoc.
      * rewrite IH, filter_cons_False; [done|]. rewrite E. congruence.
    + rewrite IH, filter_cons_False; [done|]. by rewrite E.
Qed.

(** X9: [attached_sessions] reads the cached collection only (no
    subcommand is issued, nothing changes) and never returns an empty list:
    it returns [None] exactly when no cached session record has
    [session_attached] equal to ['1'], and otherwise the records that have,
    the very objects of the collection, in the collection's order. *)
Theorem attached_sessions_reads_the_cache (w : world) :
  let h := w_heap w in
  let cached := list_at h (_sessions (w_self w)) in
  let attached s := dict_at h s !! "session_attached" = Some "1" in
  ∃ res,
    attached_sessions w = (Ok res, w) ∧
    (res = None ↔ ∀ s, s ∈ cached → ¬ attached s) ∧
    (∀ l, res = Some l ↔ l ≠ [] ∧ l = filter attached cached).
Proof.
  intros h cached attached. unfold attached_sessions.
  rewrite (bind_ok _ _ _ _ _ (get_self_run _)).
  rewrite (bind_ok _ _ _ _ _ (get_heap_run _)).
  fold h. fold cached. rewrite attached_loop_filter, app_nil_l.
  fold attached. unfold ret. eexists. split; [reflexivity|].
  case_bool_decide as Hempty.
  - split.
    + split; [|done]. intros _ s Hs Ha.
      assert (s ∈ filter attached cached) as Hin
        by (by apply list_elem_of_filter).
      rewrite Hempty in Hin. by apply elem_of_nil in Hin.
    + intros l. split; [done|]. intros [Hne ->]. done.
  - split.
    + split; [done|]. intros Hnone. exfalso. apply Hempty.
      destruct (filter attached cached) as [|s l] eqn:E; [done|].
      assert (s ∈ filter attached cached) as Hin by (rewrite E; by left).
      apply list_elem_of_filter in Hin as [Ha Hs]. by destruct (Hnone s Hs).
    + intros l. split.
      * by intros [= <-].
      * by intros [_ ->].
Qed.

Section Commands.

Variable tmux_bin :
  gmap string string → list (list string) → list string → response.

Local Abbreviation answer w argv := (tmux_bin (w_environ w) (w_calls w) argv).

(** X10: [kill_server], [switch_client] and [attach_session] issue one
    subcommand and touch nothing of the mirror, so the cached collections
    stay as they were; [kill_server] never raises, whatever the answer; the
    other two raise exactly when the answer has stderr text, and then with
    that text; [attach_session] passes [-t] only for a target that is
    neither [None] nor empty. *)
Theorem session_commands_leave_the_mirror (w : world) :
  let self := w_self w in
  kill_server tmux_bin w = (Ok tt, called w (Server_argv self ["kill-server"])) ∧
  (∀ target,
     let argv := Server_argv self ["switch-client"; "-t" +:+ target] in
     let out := switch_client tmux_bin target w in
     out.2 = called w argv ∧
     (out.1 = Ok tt ↔ stderr (answer w argv) = "") ∧
     (out.1 = Raise (Exception (stderr (answer w argv)))
        ↔ stderr (answer w argv) ≠ "")) ∧
  (∀ target,
     let argv := Server_argv self
                   ("attach-session" ::
                    match target with
                    | Some t => if decide (t = "") then [] else ["-t" +:+ t]
                    | None => []
                    end) in
     let out := attach_session tmux_bin target w in
     out.2 = called w argv ∧
     (out.1 = Ok tt ↔ stderr (answer w argv) = "") ∧
     (out.1 = Raise (Exception (stderr (answer w argv)))
        ↔ stderr (answer w argv) ≠ "")).
Proof.
  intros self. split; [done|].
  assert (∀ args,
            let argv := Server_argv self args in
            let out := (proc <- Server_tmux tmux_bin args ;;
                        if truthy (stderr proc)
                        then raise (Exception (stderr proc)) else ret tt) w in
            out.2 = called w argv ∧
            (out.1 = Ok tt ↔ stderr (answer w argv) = "") ∧
            (out.1 = Raise (Exception (stderr (answer w argv)))
               ↔ stderr (answer w argv) ≠ "")) as Hcmd.
  { intros args argv out. unfold out.
    rewrite (bind_ok _ _ _ _ _ (Server_tmux_run tmux_bin args w)).
    fold self. fold argv. destruct (truthy (stderr (answer w argv))) eqn:Ht.
    - apply truthy_true in Ht. simpl. split; [done|]. split; by split.
    - apply truthy_false in Ht. simpl. split; [done|]. split; [by split|].
      split; [done|]. by intros []. }
  split.
  - intros target. apply (Hcmd ["switch-client"; "-t" +:+ target]).
  - intros target.
    assert ((if opt_truthy target then ["-t" +:+ default "" target] else [])
            = match target with
              | Some t => if decide (t = "") then [] else ["-t" +:+ t]
              | None => []
              end) as Hargs.
    { destruct target as [t|]; [|done]. simpl. unfold truthy.
      case_bool_decide; by case_decide. }
    unfold attach_session. rewrite Hargs. apply Hcmd.
Qed.

End Commands.

(** ** Creating a session *)

Section NewSession.

Variable SESSION_FORMATS : list string.
Variable tmux_bin :
  gmap string string → list (list string) → list string → response.

Local Abbreviation probe_argv w name :=
  (Server_argv (w_self w) ["has-session"; "-t" +:+ name]).
Local Abbreviation kill_argv w name :=
  (Server_argv (w_self w) ["kill-session"; "-t" +:+ name]).
Local Abbreviation create_argv w name attach :=
  (Server_argv (w_self w)
     ("new-session" :: new_session_args SESSION_FORMATS name attach)).
Local Abbreviation list_argv w :=
  (Server_argv (w_self w) (list_sessions_args SESSION_FORMATS)).

(** When the probe says the session is absent, the guard lets the call
    through after the probe. *)
Lemma new_session_absent G session_name kill attach w :
  (has_session tmux_bin session_name w).1 = Ok false →
  new_session SESSION_FORMATS tmux_bin G session_name kill attach w
  = new_session_rest SESSION_FORMATS tmux_bin session_name attach
      (called w (probe_argv w session_name)).
Proof.
  intros Hex.
  change (new_session SESSION_FORMATS tmux_bin G session_name kill attach)
    with (exists_ <- has_session tmux_bin session_name ;;
          (if exists_ then
             if kill then
               _ <- Server_tmux tmux_bin ["kill-session"; "-t" +:+ session_name] ;;
               ret tt
             else
               raise_global G "TmuxSessionExists"
                 ("Session named " +:+ session_name +:+ " exists")
           else ret tt) ;;;
          new_session_rest SESSION_FORMATS tmux_bin session_name attach).
  unfold bind at 1. rewrite has_session_run in Hex |- *. simpl in Hex.
  injection Hex as ->. by unfold bind, ret.
Qed.

(** When it says the session exists and [kill_session] is true, the call
    goes on after the probe and the kill. *)
Lemma new_session_killing G session_name attach w :
  (has_session tmux_bin session_name w).1 = Ok true →
  new_session SESSION_FORMATS tmux_bin G session_name true attach w
  = new_session_rest SESSION_FORMATS tmux_bin session_name attach
      (called (called w (probe_argv w session_name))
         (kill_argv w session_name)).
Proof.
  intros Hex.
  change (new_session SESSION_FORMATS tmux_bin G session_name true attach)
    with (exists_ <- has_session tmux_bin session_name ;;
          (if exists_ then
             _ <- Server_tmux tmux_bin ["kill-session"; "-t" +:+ session_name] ;;
             ret tt
           else ret tt) ;;;
          new_session_rest SESSION_FORMATS tmux_bin session_name attach).
  unfold bind at 1. rewrite has_session_run in Hex |- *. simpl in Hex.
  injection Hex as ->. unfold bind at 1.
  unfold bind at 1. by rewrite Server_tmux_run.
Qed.

(** When it says the session exists and [kill_session] is false, the call
    raises after the probe, whatever the namespace holds. *)
Lemma new_session_refused G session_name attach w :
  (has_session tmux_bin session_name w).1 = Ok true →
  ∃ e, new_session SESSION_FORMATS tmux_bin G session_name false attach w
       = (Raise e, called w (probe_argv w session_name)).
Proof.
  intros Hex. unfold new_session.
  unfold bind at 1. rewrite has_session_run in Hex |- *. simpl in Hex.
  injection Hex as ->. unfold bind at 1.
  unfold raise_global.
  destruct (G !! "TmuxSessionExists") as [[]|]; by eexists.
Qed.

Lemma create_environ_restored env :
  (if opt_truthy (env !! "TMUX")
   then <["TMUX" := default "" (env !! "TMUX")]> (delete "TMUX" env)
   else create_environ env) = env.
Proof.
  unfold create_environ. destruct (env !! "TMUX") as [v|] eqn:E; simpl.
  - destruct (truthy v); [|done]. rewrite insert_delete_eq. by apply insert_id.
  - done.
Qed.

(** The rest of [new_session], path by path. *)
Lemma new_session_rest_run session_name attach we :
  let ca := create_argv we session_name attach in
  let created := tmux_bin (create_environ (w_environ we)) (w_calls we) ca in
  let wc := World (w_self we) (w_heap we) (create_environ (w_environ we))
              (w_calls we ++ [ca]) in
  new_session_rest SESSION_FORMATS tmux_bin session_name attach we =
    if truthy (stderr created) then (Raise (Exception (stderr created)), wc)
    else match py_iter (stdout created) with
         | [] => (Raise IndexError, wc)
         | line :: _ =>
             match _update_sessions SESSION_FORMATS tmux_bin (called we ca) with
             | (Ok _, w') =>
                 (Ok (mkSession (w_self we) (parse_line SESSION_FORMATS line)), w')
             | (Raise e, w') => (Raise e, w')
             end
         end.
Proof.
  destruct we as [self h env calls]. cbv zeta.
  cbn [w_self w_heap w_environ w_calls].
  unfold new_session_rest. unfold bind at 1. cbn beta iota.
  cbn [w_environ].
  assert ((when (opt_truthy (env !! "TMUX"))
             (λ w, put_environ (delete "TMUX" (w_environ w)) w))
            (World self h env calls)
          = (Ok tt, World self h (create_environ env) calls)) as Hdel.
  { unfold when, create_environ. by destruct (opt_truthy _). }
  rewrite (bind_ok _ _ _ _ _ Hdel).
  unfold bind at 1. rewrite Server_tmux_run.
  cbn [w_self w_heap w_environ w_calls called].
  destruct (truthy (stderr _)); [done|].
  destruct (py_iter (stdout _)) as [|line rest]; [done|].
  set (ca := Server_argv self _).
  assert ((when (opt_truthy (env !! "TMUX"))
             (λ w, put_environ
                     (<["TMUX" := default "" (env !! "TMUX")]>
                        (w_environ w)) w))
            (called (World self h (create_environ env) calls) ca)
          = (Ok tt, called (World self h env calls) ca)) as Hput.
  { pose proof (create_environ_restored env) as Hres.
    unfold when, called, create_environ in *.
    destruct (opt_truthy _); simpl.
    - unfold put_environ. simpl. by rewrite Hres.
    - done. }
  rewrite (bind_ok _ _ _ _ _ Hput).
  rewrite (bind_ok _ _ _ _ _ (get_self_run _)).
  unfold bind, ret. cbn [w_self w_calls].
  by destruct (_update_sessions SESSION_FORMATS tmux_bin _) as [[[]|e] w'].
Qed.

Lemma update_sessions_environ w :
  w_environ (_update_sessions SESSION_FORMATS tmux_bin w).2 = w_environ w.
Proof.
  rewrite update_sessions_run. unfold refresh_outcome.
  destruct (truthy _); [done|]. by destruct (new_dicts _ _).
Qed.




(** X13: a create answer with neither stderr text nor any line makes
    [new_session] raise [IndexError] right after the create subcommand:
    nothing is refreshed, and the marker [TMUX], deleted for the create
    subcommand, is not put back. *)
Theorem new_session_empty_output_raises_index_error
    (G : gmap string gval) (session_name : string) (kill attach : bool)
    (w : world) :
  let pa := probe_argv w session_name in
  let ca := create_argv w session_name attach in
  let created := tmux_bin (create_environ (w_environ w)) (w_calls w ++ [pa]) ca in
  let out := new_session SESSION_FORMATS tmux_bin G session_name kill attach w in
  (has_session tmux_bin session_name w).1 = Ok false →
  stderr created = "" →
  py_iter (stdout created) = [] →
  out.1 = Raise IndexError ∧
  w_calls out.2 = w_calls w ++ [pa; ca] ∧
  w_heap out.2 = w_heap w ∧
  w_environ out.2 = create_environ (w_environ w) ∧
  (opt_truthy (w_environ w !! "TMUX") = true → w_environ out.2 !! "TMUX" = None).
Proof.
  intros pa ca created out Hex Hc Hrows.
  unfold out. rewrite (new_session_absent _ _ _ _ _ Hex).
  rewrite new_session_rest_run.
  cbn [w_self w_heap w_environ w_calls called]. fold pa. fold ca.
  fold created. rewrite (proj2 (truthy_false _) Hc), Hrows. simpl.
  split; [done|]. split; [by rewrite <- app_assoc|]. split; [done|].
  split; [done|]. intros Ht. unfold create_environ. rewrite Ht.
  apply lookup_delete_eq.
Qed.

Lemma new_session_rest_environ session_name attach we :
  let out := new_session_rest SESSION_FORMATS tmux_bin session_name attach we in
  (∀ s, out.1 = Ok s → w_environ out.2 = w_environ we) ∧
  (w_environ out.2 = w_environ we ∨
   w_environ out.2 = create_environ (w_environ we)).
Proof.
  intros out. unfold out. rewrite new_session_rest_run. cbv zeta.
  destruct (truthy _); [by split; [|right]|].
  destruct (py_iter _) as [|line rest]; [by split; [|right]|].
  pose proof (update_sessions_environ
                (called we (create_argv we session_name attach))) as Henv.
  destruct (_update_sessions _ _ _) as [[[]|e] w']; simpl in *.
  - by split; [|left].
  - by split; [|left].
Qed.

(** X14: what [new_session] does to the environment, on every path: a
    call that returns leaves it exactly as it found it; a call that raises
    leaves it as found or with [TMUX] alone removed; and when [TMUX] is
    unset or empty the environment is never changed. *)
Theorem new_session_environment
    (G : gmap string gval) (session_name : string) (kill attach : bool)
    (w : world) :
  let out := new_session SESSION_FORMATS tmux_bin G session_name kill attach w in
  (∀ s, out.1 = Ok s → w_environ out.2 = w_environ w) ∧
  (w_environ out.2 = w_environ w ∨
   w_environ out.2 = delete "TMUX" (w_environ w)) ∧
  (opt_truthy (w_environ w !! "TMUX") = false → w_environ out.2 = w_environ w).
Proof.
  intros out.
  assert ((∀ s, out.1 = Ok s → w_environ out.2 = w_environ w) ∧
          (w_environ out.2 = w_environ w ∨
           w_environ out.2 = create_environ (w_environ w))) as [Hok Hany].
  { unfold out.
    destruct (has_session tmux_bin session_name w).1 as [[]|e] eqn:Hex.
    - destruct kill.
      + rewrite (new_session_killing _ _ _ _ Hex).
        apply (new_session_rest_environ session_name attach
                 (called (called w (probe_argv w session_name))
                    (kill_argv w session_name))).
      + destruct (new_session_refused G session_name attach w Hex) as [e ->].
        by split; [|left].
    - rewrite (new_session_absent _ _ _ _ _ Hex).
      apply (new_session_rest_environ session_name attach
               (called w (probe_argv w session_name))).
    - by rewrite has_session_run in Hex. }
  split; [done|]. split.
  - destruct Hany as [?|Hc]; [by left|]. rewrite Hc. unfold create_environ.
    destruct (opt_truthy _); [by right | by left].
  - intros Hf. destruct Hany as [?|Hc]; [done|]. rewrite Hc.
    unfold create_environ. by rewrite Hf.
Qed.

End NewSession.

(** ** Client refresh: the empty collection and rows without a key *)

Section MoreClients.

Variable tmux_bin :
  gmap string string → list (list string) → list string → response.

Local Abbreviation clients_argv w fmts :=
  (Server_argv (w_self w)
     ["list-clients"; "-F" +:+ join TAB (tmux_format <$> fmts)]).

(** [list_clients] up to the point where the old collection is found to be
    empty. *)
Lemma list_clients_prefix_empty G fmts c w ns h1 :
  let argv := clients_argv w fmts in
  let news := parse (py_iter (stdout (tmux_bin (w_environ w) (w_calls w) argv))) fmts in
  G !! "CLIENT_FORMATS" = Some (GStrList fmts) →
  _clients (w_self w) = Some c →
  new_dicts news (w_heap w) = (ns, h1) →
  list_at h1 c = [] →
  list_clients tmux_bin G w =
    (for_each ns (add_client c) ;;; ret c) (with_heap (called w argv) h1).
Proof.
  intros argv news HG Hc E Hempty. unfold list_clients.
  unfold bind at 1. unfold global_fields. rewrite HG. unfold ret at 1.
  unfold bind at 1. rewrite Server_tmux_run. fold argv.
  unfold bind at 1. unfold alloc_dicts.
  cbn [w_heap w_self w_environ w_calls called]. fold news. rewrite E.
  unfold bind at 1. unfold get_self at 1. cbn [w_self]. rewrite Hc.
  unfold bind at 1. unfold get_heap at 1. cbn [w_heap].
  by rewrite (bool_decide_eq_true_2 _ Hempty).
Qed.

(** The appending loop stops at the first record without its key, with the
    records before it already appended. *)
Lemma for_each_add_raise c pre n post w h :
  (∀ x, x ∈ pre → is_Some (dict_at h x !! "client_tty")) →
  dict_at h n !! "client_tty" = None →
  ∃ h', for_each (pre ++ n :: post) (add_client c) (with_heap w h)
          = (Raise (KeyError "client_tty"), with_heap w h') ∧
        list_at h' c = list_at h c ++ pre ∧
        h_dicts h' = h_dicts h.
Proof.
  revert h. induction pre as [|x pre IH]; intros h Hpre Hn.
  - exists h. split; [|by rewrite app_nil_r]. simpl.
    apply bind_raise. unfold add_client. apply bind_raise.
    by apply getitem_raise.
  - destruct (Hpre x) as [tty Htty]; [by left|].
    destruct (IH (set_list c (list_at h c ++ [x]) h)) as (h' & Hrun & Hl & Hd).
    { intros y Hy. rewrite dict_at_set_list. apply Hpre. by right. }
    { by rewrite dict_at_set_list. }
    exists h'. split; [|split].
    + cbn [app for_each].
      rewrite (bind_ok _ _ _ _ _ (add_client_run c x (with_heap w h) _ Htty)).
      exact Hrun.
    + rewrite Hl, list_at_set_list. by rewrite <- app_assoc.
    + by rewrite Hd.
Qed.

Lemma index_new_raise cs acc w :
  (∃ n, n ∈ cs ∧ dict_at (w_heap w) n !! "client_tty" = None) →
  index_new cs acc w = (Raise (KeyError "client_tty"), w).
Proof.
  revert acc. induction cs as [|x cs IH]; intros acc (n & Hn & Hk).
  - by apply elem_of_nil in Hn.
  - simpl. destruct (dict_at (w_heap w) x !! "client_tty") as [tty|] eqn:E.
    + rewrite (bind_ok _ _ _ _ _ (getitem_run _ _ _ _ E)). apply IH.
      exists n. split; [|done].
      apply elem_of_cons in Hn as [->|Hn]; [congruence | done].
    + apply bind_raise. by apply getitem_raise.
Qed.

(** X15: on an empty client collection [list_clients] appends every polled
    row as a new record object, in poll order, rows that share a
    [client_tty] included, and returns the collection; the stderr of the
    subcommand plays no part. *)
Theorem list_clients_fills_empty_collection
    (G : gmap string gval) (fmts : list string) (c : loc) (w : world) :
  let argv := clients_argv w fmts in
  let news := parse (py_iter (stdout (tmux_bin (w_environ w) (w_calls w) argv))) fmts in
  let out := list_clients tmux_bin G w in
  G !! "CLIENT_FORMATS" = Some (GStrList fmts) →
  _clients (w_self w) = Some c →
  list_at (w_heap w) c = [] →
  (∀ d, d ∈ news → is_Some (d !! "client_tty")) →
  out.1 = Ok c ∧
  w_calls out.2 = w_calls w ++ [argv] ∧
  records_at (w_heap out.2) c = news ∧
  NoDup (list_at (w_heap out.2) c) ∧
  ∀ l, l ∈ list_at (w_heap out.2) c → h_dicts (w_heap w) !! l = None.
Proof.
  intros argv news out HG Hc Hempty Hkeys.
  destruct (new_dicts news (w_heap w)) as [ns h1] eqn:E.
  destruct (new_dicts_spec _ _ _ _ E) as (Hl1 & _ & Hnd & Hfresh & _).
  pose proof (new_dicts_contents _ _ _ _ E) as Hnews.
  assert (list_at h1 c = []) as Hempty1.
  { unfold list_at. by rewrite Hl1. }
  destruct (for_each_add_run c ns (called w argv) h1) as (h2 & Hadd & Hl2 & Hd2 & _).
  { intros n Hn. apply Hkeys. rewrite <- Hnews. by apply list_elem_of_fmap_2. }
  assert (out = (Ok c, with_heap (called w argv) h2)) as ->.
  { unfold out.
    rewrite (list_clients_prefix_empty G fmts c w ns h1 HG Hc E Hempty1).
    by rewrite (bind_ok _ _ _ _ _ Hadd). }
  rewrite Hempty1 in Hl2. simpl in Hl2. simpl.
  split; [done|]. split; [done|]. split; [|split].
  - unfold records_at. rewrite Hl2. rewrite <- Hnews.
    apply list_fmap_ext. intros i n _. unfold dict_at. by rewrite Hd2.
  - by rewrite Hl2.
  - intros l Hl. rewrite Hl2 in Hl. by apply Hfresh.
Qed.

(** X16: on an empty collection, a polled row without [client_tty] makes
    [list_clients] raise [KeyError] in the middle of the update: the rows
    polled before it are already in the collection, the others are not. *)
Theorem list_clients_keyless_row_leaves_partial_update
    (G : gmap string gval) (fmts : list string) (c : loc) (w : world)
    (before after : list (gmap string string)) (d : gmap string string) :
  let argv := clients_argv w fmts in
  let news := parse (py_iter (stdout (tmux_bin (w_environ w) (w_calls w) argv))) fmts in
  let out := list_clients tmux_bin G w in
  G !! "CLIENT_FORMATS" = Some (GStrList fmts) →
  _clients (w_self w) = Some c →
  list_at (w_heap w) c = [] →
  news = before ++ d :: after →
  (∀ x, x ∈ before → is_Some (x !! "client_tty")) →
  d !! "client_tty" = None →
  out.1 = Raise (KeyError "client_tty") ∧
  records_at (w_heap out.2) c = before.
Proof.
  intros argv news out HG Hc Hempty Hsplit Hbefore Hd.
  destruct (new_dicts news (w_heap w)) as [ns h1] eqn:E.
  destruct (new_dicts_spec _ _ _ _ E) as (Hl1 & _ & _ & _ & _).
  pose proof (new_dicts_contents _ _ _ _ E) as Hnews.
  assert (list_at h1 c = []) as Hempty1.
  { unfold list_at. by rewrite Hl1. }
  rewrite Hsplit in Hnews.
  apply fmap_app_inv in Hnews as (pre & rest & Hpre & Hrest & ->).
  symmetry in Hrest.
  apply fmap_cons_inv in Hrest as (n & post & Hn & Hpost & ->).
  destruct (for_each_add_raise c pre n post (called w argv) h1)
    as (h2 & Hrun & Hl2 & Hd2).
  { intros x Hx. apply Hbefore. rewrite Hpre. by apply list_elem_of_fmap_2. }
  { by rewrite <- Hn. }
  assert (out = (Raise (KeyError "client_tty"), with_heap (called w argv) h2))
    as ->.
  { unfold out.
    rewrite (list_clients_prefix_empty G fmts c w _ h1 HG Hc E Hempty1).
    by rewrite (bind_raise _ _ _ _ _ Hrun). }
  split; [done|]. simpl. unfold records_at. rewrite Hl2, Hempty1. simpl.
  rewrite Hpre. apply list_fmap_ext. intros i x _. unfold dict_at.
  by rewrite Hd2.
Qed.

(** X17: on a collection that is not empty, a polled row without
    [client_tty] makes [list_clients] raise [KeyError] before the
    reconciliation starts: the collection and every record that existed are
    as before. *)
Theorem list_clients_keyless_row_leaves_collection
    (G : gmap string gval) (fmts : list string) (c : loc) (w : world)
    (d : gmap string string) :
  let argv := clients_argv w fmts in
  let news := parse (py_iter (stdout (tmux_bin (w_environ w) (w_calls w) argv))) fmts in
  let out := list_clients tmux_bin G w in
  G !! "CLIENT_FORMATS" = Some (GStrList fmts) →
  _clients (w_self w) = Some c →
  list_at (w_heap w) c ≠ [] →
  d ∈ news →
  d !! "client_tty" = None →
  out.1 = Raise (KeyError "client_tty") ∧
  h_lists (w_heap out.2) = h_lists (w_heap w) ∧
  ∀ l, is_Some (h_dicts (w_heap w) !! l) →
       h_dicts (w_heap out.2) !! l = h_dicts (w_heap w) !! l.
Proof.
  intros argv news out HG Hc Hne Hin Hd.
  destruct (new_dicts news (w_heap w)) as [ns h1] eqn:E.
  destruct (new_dicts_spec _ _ _ _ E) as (Hl1 & _ & _ & Hfresh & Hframe).
  pose proof (new_dicts_contents _ _ _ _ E) as Hnews.
  assert (list_at h1 c ≠ []) as Hne1.
  { unfold list_at. by rewrite Hl1. }
  assert (out = (Raise (KeyError "client_tty"), with_heap (called w argv) h1))
    as ->.
  { unfold out.
    rewrite (list_clients_prefix tmux_bin G fmts c w ns h1 HG Hc E Hne1).
    apply bind_raise. apply index_new_raise.
    rewrite <- Hnews in Hin. apply list_elem_of_fmap in Hin as (n & -> & Hn).
    by exists n. }
  simpl. split; [done|]. split; [done|].
  intros l [x Hx]. apply Hframe. intros Hl. by rewrite (Hfresh l Hl) in Hx.
Qed.

End MoreClients.

(** ** Client refresh: the reconciliation with removals *)

Lemma remove_first_sublist h d l l' :
  remove_first h d l = Some l' → l' `sublist_of` l.
Proof.
  revert l'. induction l as [|y l IH]; intros l'; simpl; [done|].
  case_decide.
  - intros [= ->]. by apply sublist_cons.
  - destruct (remove_first h d l) as [l2|]; simpl; [|done].
    intros [= <-]. apply sublist_skip. by apply IH.
Qed.

(** When no element before [x] compares equal to it, [remove] takes out
    [x] itself. *)
Lemma remove_first_middle h d front x back :
  (∀ y, y ∈ front → dict_at h y ≠ d) →
  dict_at h x = d →
  remove_first h d (front ++ x :: back) = Some (front ++ back).
Proof.
  intros Hfront Hx. induction front as [|y front IH]; simpl.
  - by rewrite decide_True.
  - rewrite decide_False by (apply Hfront; by left).
    rewrite IH; [done|]. intros z Hz. apply Hfront. by right.
Qed.

Lemma sync_loop_past_end c deleted intersect diff fuel i w :
  length (list_at (w_heap w) c) ≤ i →
  sync_loop fuel i c deleted intersect diff w = (Ok tt, w).
Proof.
  intros Hlen. destruct fuel as [|fuel]; [done|]. cbn [sync_loop].
  rewrite (bind_ok _ _ _ _ _ (get_heap_run _)).
  by rewrite (proj2 (lookup_ge_None _ _) Hlen).
Qed.

Lemma visited_subseteq gone l p : p ∈ visited gone l → p ∈ l.
Proof.
  assert (∀ n l, length l ≤ n → p ∈ visited gone l → p ∈ l) as H.
  { clear l. induction n as [|n IH]; intros l Hlen.
    - destruct l; [done | simpl in Hlen; lia].
    - destruct l as [|x rest]; [done|]. simpl in *.
      destruct (gone x).
      + destruct rest as [|y rest']; [by intros ?%elem_of_nil|]. intros Hp.
        do 2 (apply elem_of_cons; right).
        apply IH; [simpl in Hlen; lia | done].
      + intros [->|Hp]%elem_of_cons; [by left|]. right. apply IH; [lia|done]. }
  by apply (H (length l)).
Qed.

Lemma sweep_sublist gone l : sweep gone l `sublist_of` l.
Proof.
  assert (∀ n l, length l ≤ n → sweep gone l `sublist_of` l) as H.
  { clear l. induction n as [|n IH]; intros l Hlen.
    - destruct l; [done | simpl in Hlen; lia].
    - destruct l as [|x rest]; [done|]. simpl in *.
      destruct (gone x).
      + destruct rest as [|y rest']; [apply sublist_nil_l|].
        apply sublist_cons, sublist_skip, IH. simpl in Hlen. lia.
      + apply sublist_skip, IH. lia. }
  by apply (H (length l)).
Qed.

Section Reconciliation.

Variables (c : loc) (deleted intersect : gset (option string)).
Variable diff : gmap (option string) (gmap string string).
Variable w : world.

Hypothesis diff_keeps_key :
  ∀ k, k ∈ intersect → ∃ pk, diff !! k = Some pk ∧ pk !! "client_tty" = None.

(** Whatever is removed, the loop of lines 292-300 returns, leaves a
    sublist of the collection, and leaves every record either as it was or
    updated with the patch of its key. *)
Lemma sync_loop_keeps h0 :
  let olds := list_at h0 c in
  let key p := dict_at h0 p !! "client_tty" in
  let patch p := default ∅ (diff !! key p) in
  let J h :=
    list_at h c `sublist_of` olds ∧
    (∀ c', c' ≠ c → h_lists h !! c' = h_lists h0 !! c') ∧
    (∀ p, dict_at h p = dict_at h0 p ∨
          (key p ∈ intersect ∧
           dict_at h p = dict_update (dict_at h0 p) (patch p))) ∧
    (∀ p, p ∉ olds → h_dicts h !! p = h_dicts h0 !! p) in
  ∀ fuel i h,
    J h →
    ∃ h', sync_loop fuel i c deleted intersect diff (with_heap w h)
            = (Ok tt, with_heap w h') ∧ J h'.
Proof.
  intros olds key patch J.
  assert (∀ h p, J h → dict_at h p !! "client_tty" = key p) as Hkeep.
  { intros h p (_ & _ & Hd & _). destruct (Hd p) as [->|[Hk ->]]; [done|].
    destruct (diff_keeps_key _ Hk) as (pk & Hpk & Hct).
    assert (patch p = pk) as -> by (unfold patch; by rewrite Hpk).
    by rewrite dict_update_lookup, Hct. }
  induction fuel as [|fuel IH]; intros i h HJ; [by exists h|].
  cbn [sync_loop]. rewrite (bind_ok _ _ _ _ _ (get_heap_run _)).
  cbn [w_heap with_heap].
  destruct (list_at h c !! i) as [s|] eqn:Hs; [|by exists h].
  assert (s ∈ list_at h c) as Hin by (by eapply list_elem_of_lookup_2).
  assert (∃ h2, sync_step c deleted intersect diff s (with_heap w h)
                  = (Ok tt, with_heap w h2) ∧ J h2) as (h2 & Hstep & HJ2).
  { unfold sync_step. rewrite (bind_ok _ _ _ _ _ (dict_get_run _ _ _)).
    cbn [w_heap with_heap]. rewrite (Hkeep h s HJ).
    assert (∃ h1, when (bool_decide (key s ∈ deleted)) (list_remove c s)
                    (with_heap w h) = (Ok tt, with_heap w h1) ∧ J h1)
      as (h1 & Hwhen & HJ1).
    { unfold when. case_bool_decide; [|by exists h].
      unfold list_remove. rewrite (bind_ok _ _ _ _ _ (get_heap_run _)).
      cbn [w_heap with_heap].
      destruct (remove_first_elem h s _ Hin) as [l' Hl'].
      rewrite Hl'. exists (set_list c l' h). split; [done|].
      destruct HJ as (Hsub & Hlists & Hd & Hrest).
      split; [|split; [|split]].
      - rewrite list_at_set_list. etrans; [|exact Hsub].
        by eapply remove_first_sublist.
      - intros c' Hc'. unfold set_list. simpl.
        rewrite lookup_insert_ne by done. by apply Hlists.
      - done.
      - done. }
    rewrite (bind_ok _ _ _ _ _ Hwhen).
    rewrite (bind_ok _ _ _ _ _ (dict_get_run _ _ _)).
    cbn [w_heap with_heap]. rewrite (Hkeep h1 s HJ1).
    destruct (decide (key s ∈ intersect)) as [Hki|Hki];
      [rewrite (bool_decide_eq_true_2 _ Hki)
      |rewrite (bool_decide_eq_false_2 _ Hki); by exists h1].
    destruct (diff_keeps_key _ Hki) as (pk & Hpk & Hct). rewrite Hpk.
    rewrite (bind_ok _ _ _ _ _ (get_heap_run _)). cbn [w_heap with_heap].
    exists (set_dict s (dict_update (dict_at h1 s) pk) h1). split; [done|].
    destruct HJ1 as (Hsub & Hlists & Hd & Hrest).
    assert (s ∈ olds) as Hso.
    { destruct HJ as (Hsub0 & _). by eapply elem_of_sublist. }
    split; [done|]. split; [done|]. split.
    - intros p. destruct (decide (s = p)) as [<-|Hne].
      + right. split; [done|]. rewrite dict_at_set_dict.
        assert (patch s = pk) as Hpatch by (unfold patch; by rewrite Hpk).
        destruct (Hd s) as [->|[_ ->]]; rewrite Hpatch; [done|].
        apply dict_update_idem.
      + rewrite dict_at_set_dict_ne by done. apply Hd.
    - intros p Hp. unfold set_dict. simpl.
      rewrite lookup_insert_ne by (intros ->; done). by apply Hrest. }
  rewrite (bind_ok _ _ _ _ _ Hstep). by apply IH.
Qed.

(** With distinct keys in the collection, the loop leaves exactly what the
    stepping-over iteration leaves, and patches exactly the records it
    visits without removing them. *)
Lemma sync_loop_sweeps (gone : loc → bool) (key0 : loc → option string) :
  let patch p := default ∅ (diff !! key0 p) in
  ∀ fuel todo front h,
    length todo ≤ fuel →
    list_at h c = front ++ todo →
    NoDup (key0 <$> (front ++ todo)) →
    (∀ p, p ∈ front ++ todo → dict_at h p !! "client_tty" = key0 p) →
    (∀ p, p ∈ todo →
          if gone p then (key0 p ∈ deleted ∧ key0 p ∉ intersect)
          else ((key0 p ∉ deleted) ∧ key0 p ∈ intersect)) →
    ∃ h', sync_loop fuel (length front) c deleted intersect diff (with_heap w h)
            = (Ok tt, with_heap w h') ∧
          list_at h' c = front ++ sweep gone todo ∧
          (∀ c', c' ≠ c → h_lists h' !! c' = h_lists h !! c') ∧
          (∀ p, p ∈ visited gone todo →
                dict_at h' p = dict_update (dict_at h p) (patch p)) ∧
          (∀ p, p ∉ visited gone todo → h_dicts h' !! p = h_dicts h !! p).
Proof.
  intros patch. induction fuel as [|fuel IH]; intros todo front h Hlen Hlist Hnd Hkeys Hgone.
  { destruct todo; [|simpl in Hlen; lia]. exists h.
    split; [done|]. split; [by rewrite Hlist|]. split; [done|].
    split; [by intros p ?%elem_of_nil | done]. }
  destruct todo as [|x rest].
  { exists h. split.
    - apply (sync_loop_past_end _ _ _ _ _ _ (with_heap w h)). simpl.
      rewrite Hlist, app_nil_r. done.
    - split; [by rewrite Hlist|]. split; [done|].
      split; [by intros p ?%elem_of_nil | done]. }
  cbn [sync_loop]. rewrite (bind_ok _ _ _ _ _ (get_heap_run _)).
  cbn [w_heap with_heap]. rewrite Hlist, list_lookup_middle by done.
  assert (dict_at h x !! "client_tty" = key0 x) as Hkx.
  { apply Hkeys, elem_of_app. right. by left. }
  assert (x ∉ rest) as Hxr.
  { rewrite fmap_app, fmap_cons in Hnd.
    apply NoDup_app in Hnd as (_ & _ & Hnd).
    apply NoDup_cons in Hnd as [Hnot _]. intros Hin. apply Hnot.
    by apply list_elem_of_fmap_2. }
  assert (NoDup (key0 <$> ((front ++ [x]) ++ rest))) as Hnd_keep.
  { by rewrite <- app_assoc. }
  pose proof (Hgone x (list_elem_of_here _ _)) as Hgx.
  destruct (gone x) eqn:Egx.
  - destruct Hgx as [Hkd Hki].
    assert (remove_first h (dict_at h x) (front ++ x :: rest) = Some (front ++ rest))
      as Hrem.
    { apply remove_first_middle; [|done]. intros y Hy Heq.
      assert (key0 y = key0 x) as Hk.
      { rewrite <- Hkx, <- Heq. symmetry. apply Hkeys, elem_of_app. by left. }
      rewrite fmap_app, fmap_cons in Hnd.
      apply NoDup_app in Hnd as (_ & Hdisj & _).
      apply (Hdisj (key0 y)); [by apply list_elem_of_fmap_2|].
      rewrite Hk. by left. }
    set (h1 := set_list c (front ++ rest) h).
    assert (sync_step c deleted intersect diff x (with_heap w h)
            = (Ok tt, with_heap w h1)) as Hstep.
    { unfold sync_step. rewrite (bind_ok _ _ _ _ _ (dict_get_run _ _ _)).
      cbn [w_heap with_heap]. rewrite Hkx.
      rewrite (bool_decide_eq_true_2 _ Hkd). unfold when at 1.
      assert (list_remove c x (with_heap w h) = (Ok tt, with_heap w h1)) as Hlr.
      { unfold list_remove. rewrite (bind_ok _ _ _ _ _ (get_heap_run _)).
        cbn [w_heap with_heap]. by rewrite Hlist, Hrem. }
      rewrite (bind_ok _ _ _ _ _ Hlr).
      rewrite (bind_ok _ _ _ _ _ (dict_get_run _ _ _)).
      cbn [w_heap with_heap]. unfold h1. rewrite dict_at_set_list, Hkx.
      by rewrite (bool_decide_eq_false_2 _ Hki). }
    rewrite (bind_ok _ _ _ _ _ Hstep).
    destruct rest as [|y rest'].
    + exists h1. split.
      * apply sync_loop_past_end. simpl. unfold h1.
        rewrite list_at_set_list, app_nil_r. lia.
      * simpl. rewrite Egx. unfold h1. rewrite list_at_set_list.
        split; [done|]. split.
        -- intros c' Hc'. simpl. by rewrite lookup_insert_ne.
        -- split; [by intros p ?%elem_of_nil | done].
    + destruct (IH rest' (front ++ [y]) h1) as (h' & Hrun & Hl' & Hlists & Hvis & Hrest).
      * simpl in Hlen. lia.
      * unfold h1. rewrite list_at_set_list. by rewrite <- app_assoc.
      * rewrite <- app_assoc. simpl.
        rewrite !fmap_app, !fmap_cons in Hnd |- *.
        apply NoDup_app in Hnd as (Hn1 & Hdisj & Hn2).
        apply NoDup_cons in Hn2 as [_ Hn2].
        apply NoDup_app. split; [done|]. split; [|done].
        intros k Hk Hin. apply (Hdisj k Hk). by right.
      * intros p Hp. unfold h1. rewrite dict_at_set_list. apply Hkeys.
        rewrite <- app_assoc in Hp. simpl in Hp.
        apply elem_of_app in Hp as [Hp|Hp]; apply elem_of_app; [by left|].
        right. by right.
      * intros p Hp. apply Hgone. by do 2 right.
      * exists h'. rewrite length_app in Hrun. simpl in Hrun.
        rewrite Nat.add_1_r in Hrun. split; [exact Hrun|].
        simpl. rewrite Egx. split; [by rewrite Hl', <- app_assoc|].
        split; [|done]. intros c' Hc'. rewrite Hlists by done.
        unfold h1. simpl. by rewrite lookup_insert_ne.
  - destruct Hgx as [Hkd Hki].
    destruct (diff_keeps_key _ Hki) as (pk & Hpk & Hct).
    assert (patch x = pk) as Hpatch by (unfold patch; by rewrite Hpk).
    set (h2 := set_dict x (dict_update (dict_at h x) pk) h).
    assert (sync_step c deleted intersect diff x (with_heap w h)
            = (Ok tt, with_heap w h2)) as Hstep.
    { unfold sync_step. rewrite (bind_ok _ _ _ _ _ (dict_get_run _ _ _)).
      cbn [w_heap with_heap]. rewrite Hkx.
      rewrite (bool_decide_eq_false_2 _ Hkd). unfold when at 1.
      rewrite (bind_ok _ _ _ tt (with_heap w h)) by done.
      rewrite (bind_ok _ _ _ _ _ (dict_get_run _ _ _)).
      cbn [w_heap with_heap]. rewrite Hkx.
      by rewrite (bool_decide_eq_true_2 _ Hki), Hpk. }
    rewrite (bind_ok _ _ _ _ _ Hstep).
    destruct (IH rest (front ++ [x]) h2) as (h' & Hrun & Hl' & Hlists & Hvis & Hrest).
    + simpl in Hlen. lia.
    + unfold h2. rewrite list_at_set_dict, Hlist. by rewrite <- app_assoc.
    + done.
    + intros p Hp. rewrite <- app_assoc in Hp. simpl in Hp.
      destruct (decide (x = p)) as [<-|Hne].
      * unfold h2. rewrite dict_at_set_dict, dict_update_lookup, Hct. done.
      * unfold h2. rewrite dict_at_set_dict_ne by done. by apply Hkeys.
    + intros p Hp. apply Hgone. by right.
    + exists h'. rewrite length_app in Hrun. simpl in Hrun.
      rewrite Nat.add_1_r in Hrun. split; [exact Hrun|].
      simpl. rewrite Egx. split; [by rewrite Hl', <- app_assoc|].
      split; [done|]. split.
      * intros p [->|Hp]%elem_of_cons.
        -- assert (x ∉ visited gone rest) as Hnv
             by (intros ?%visited_subseteq; done).
           unfold dict_at at 1. rewrite (Hrest x Hnv).
           fold (dict_at h2 x). unfold h2. by rewrite dict_at_set_dict, Hpatch.
        -- rewrite (Hvis p Hp). unfold h2.
           rewrite dict_at_set_dict_ne; [done|].
           intros ->. apply Hxr. by eapply visited_subseteq.
      * intros p Hp. apply not_elem_of_cons in Hp as [Hne Hp].
        rewrite (Hrest p Hp). unfold h2, set_dict. simpl.
        by rewrite lookup_insert_ne.
Qed.

End Reconciliation.

Section ReconciledClients.

Variable tmux_bin :
  gmap string string → list (list string) → list string → response.

Local Abbreviation clients_argv w fmts :=
  (Server_argv (w_self w)
     ["list-clients"; "-F" +:+ join TAB (tmux_format <$> fmts)]).

(** [list_clients] around its loop: what the loop is run with, and what the
    call makes of the object store the loop leaves. *)
Lemma list_clients_reconcile_run G fmts c w :
  let argv := clients_argv w fmts in
  let news := parse (py_iter (stdout (tmux_bin (w_environ w) (w_calls w) argv))) fmts in
  let olds := list_at (w_heap w) c in
  let old_recs := records_at (w_heap w) c in
  let out := list_clients tmux_bin G w in
  let deleted := dom (by_key old_recs) ∖ dom (by_key news) in
  let intersect := dom (by_key news) ∩ dom (by_key old_recs) in
  G !! "CLIENT_FORMATS" = Some (GStrList fmts) →
  _clients (w_self w) = Some c →
  olds ≠ [] →
  (∀ p, p ∈ olds → is_Some (h_dicts (w_heap w) !! p)) →
  (∀ d, d ∈ news → is_Some (d !! "client_tty")) →
  ∃ (ns : list loc) (h1 : heap) diff,
    list_at h1 c = olds ∧
    h_lists h1 = h_lists (w_heap w) ∧
    (∀ p, p ∈ olds → dict_at h1 p = dict_at (w_heap w) p) ∧
    (∀ p, p ∈ olds → p ∉ ns) ∧
    (∀ k, k ∈ intersect →
          diff !! k = Some (dict_diff (default ∅ (by_key news !! k))
                                      (default ∅ (by_key old_recs !! k)))) ∧
    (∀ k, k ∈ intersect →
          ∃ pk, diff !! k = Some pk ∧ pk !! "client_tty" = None) ∧
    ∀ h2,
      sync_loop (length olds) 0 c deleted intersect diff
        (with_heap (called w argv) h1) = (Ok tt, with_heap (called w argv) h2) →
      (∀ n, n ∈ ns → h_dicts h2 !! n = h_dicts h1 !! n) →
      ∃ appended h3,
        out = (Ok c, with_heap (called w argv) h3) ∧
        list_at h3 c = list_at h2 c ++ appended ∧
        h_dicts h3 = h_dicts h2 ∧
        length appended = size (dom (by_key news) ∖ dom (by_key old_recs)) ∧
        (∀ l, l ∈ appended → h_dicts (w_heap w) !! l = None) ∧
        (∀ d, d ∈ dict_at h3 <$> appended ↔
              ∃ k, by_key news !! k = Some d ∧ by_key old_recs !! k = None).
Proof.
  intros argv news olds old_recs out deleted intersect HG Hc Hne Hwf Hkeys.
  destruct (new_dicts news (w_heap w)) as [ns h1] eqn:E.
  destruct (new_dicts_spec _ _ _ _ E) as (Hl1 & _ & Hnd & Hfresh & Hframe).
  pose proof (new_dicts_contents _ _ _ _ E) as Hnews.
  assert (list_at h1 c = olds) as Holds.
  { unfold olds, list_at. by rewrite Hl1. }
  assert (∀ p, p ∈ olds → p ∉ ns) as Hdisj.
  { intros p Hp Hn. destruct (Hwf p Hp) as [d Hd].
    rewrite (Hfresh p Hn) in Hd. done. }
  assert (∀ p, p ∈ olds → dict_at h1 p = dict_at (w_heap w) p) as Hsame.
  { intros p Hp. unfold dict_at. by rewrite (Hframe p (Hdisj p Hp)). }
  assert (dict_at h1 <$> olds = old_recs) as Holdrecs.
  { unfold old_recs, records_at. fold olds. apply list_fmap_ext.
    intros i p Hp. apply Hsame. by eapply list_elem_of_lookup_2. }
  assert (out = (new <- index_new ns ∅ ;;
     h <- get_heap ;;
     let old := index_old h (list_at h c) in
     let created := dom new ∖ dom old in
     let deleted := dom old ∖ dom new in
     let intersect := dom new ∩ dom old in
     let diff := clients_diff h new old intersect in
     sync_loop (length (list_at h c)) 0 c deleted intersect diff ;;;
     for_each (omap (λ k, new !! k) (elements created)) (add_client c) ;;;
     ret c) (with_heap (called w argv) h1)) as Hout.
  { unfold out. apply (list_clients_prefix tmux_bin G fmts c w ns h1); try done.
    by rewrite Holds. }
  set (w2 := called w argv) in *.
  assert (∀ n, n ∈ ns → is_Some (dict_at h1 n !! "client_tty")) as Hnk.
  { intros n Hn. apply Hkeys. rewrite <- Hnews. by apply list_elem_of_fmap_2. }
  rewrite (bind_ok _ _ _ _ _ (index_new_run ns ∅ (with_heap w2 h1) Hnk)) in Hout.
  change (foldl _ ∅ _) with (index_old h1 ns) in Hout.
  rewrite (bind_ok _ _ _ _ _ (get_heap_run _)) in Hout.
  cbn [w_heap with_heap] in Hout. cbv zeta in Hout. rewrite Holds in Hout.
  set (newm := index_old h1 ns) in *.
  set (old := index_old h1 olds) in *.
  assert (dom newm = dom (by_key news)) as Hdn.
  { unfold newm. by rewrite index_old_dom, Hnews. }
  assert (dom old = dom (by_key old_recs)) as Hdo.
  { unfold old. by rewrite index_old_dom, Holdrecs. }
  rewrite Hdn, Hdo in Hout. fold deleted intersect in Hout.
  set (created := dom (by_key news) ∖ dom (by_key old_recs)) in *.
  set (diff := clients_diff h1 newm old intersect) in *.
  assert (∀ k, rec_of h1 newm k = default ∅ (by_key news !! k)) as Hrn.
  { intros k. unfold newm. by rewrite rec_of_index_old, Hnews. }
  assert (∀ k, rec_of h1 old k = default ∅ (by_key old_recs !! k)) as Hro.
  { intros k. unfold old. by rewrite rec_of_index_old, Holdrecs. }
  assert (∀ k, k ∈ intersect →
            diff !! k = Some (dict_diff (default ∅ (by_key news !! k))
                                        (default ∅ (by_key old_recs !! k))))
    as Hdiff.
  { intros k Hk. unfold diff, clients_diff. apply lookup_set_to_map.
    - by intros y y' _ _.
    - exists k. split; [done|]. by rewrite Hrn, Hro. }
  exists ns, h1, diff. split; [done|]. split; [done|]. split; [done|].
  split; [done|]. split; [done|]. split.
  { intros k Hk. eexists. split; [by apply Hdiff|].
    apply dict_diff_same_key.
    apply elem_of_intersection in Hk as [Hk1 Hk2].
    apply elem_of_dom in Hk1 as [n Hn]. apply elem_of_dom in Hk2 as [o Ho].
    rewrite Hn, Ho. simpl.
    apply by_key_lookup in Hn as [-> _]. by apply by_key_lookup in Ho as [-> _]. }
  intros h2 Hloop Hnew2.
  rewrite (bind_ok _ _ _ _ _ Hloop) in Hout.
  set (appended := omap (λ k, newm !! k) (elements created)) in *.
  assert (∀ n, n ∈ appended → n ∈ ns ∧
            ∃ k, k ∈ created ∧ newm !! k = Some n) as Happ.
  { intros n (k & Hk & Hn)%list_elem_of_omap.
    apply elem_of_elements in Hk. split; [|by exists k].
    by apply index_old_elem in Hn as [? _]. }
  assert (∀ n, n ∈ ns → dict_at h2 n = dict_at h1 n) as Hd21.
  { intros n Hn. unfold dict_at. by rewrite Hnew2. }
  destruct (for_each_add_run c appended w2 h2) as (h3 & Hadd & Hl3 & Hd3 & _).
  { intros n [Hn _]%Happ. rewrite Hd21 by done. by apply Hnk. }
  rewrite (bind_ok _ _ _ _ _ Hadd) in Hout. unfold ret in Hout.
  assert (∀ l, dict_at h3 l = dict_at h2 l) as Hd32.
  { intros l. unfold dict_at. by rewrite Hd3. }
  exists appended, h3. split; [done|]. split; [done|]. split; [done|].
  split; [|split].
  - unfold appended. apply omap_lookup_length. intros k Hk%elem_of_elements.
    apply elem_of_dom. rewrite Hdn. unfold created in Hk.
    by apply elem_of_difference in Hk as [? _].
  - intros l [Hl _]%Happ. by apply Hfresh.
  - intros d. rewrite list_elem_of_fmap. split.
    + intros (n & -> & Hn). destruct (Happ n Hn) as (Hns & k & Hk & Hkn).
      exists k. rewrite Hd32, (Hd21 n Hns). split.
      * rewrite <- Hnews. unfold newm in Hkn.
        rewrite <- index_old_records, lookup_fmap, Hkn. done.
      * apply not_elem_of_dom. by apply elem_of_difference in Hk as [_ ?].
    + intros (k & Hk & Hko).
      rewrite <- Hnews, <- index_old_records, lookup_fmap in Hk.
      fold newm in Hk.
      destruct (newm !! k) as [n|] eqn:Hn; simplify_eq/=.
      assert (n ∈ appended) as Hin.
      { apply list_elem_of_omap. exists k. split; [|done].
        apply elem_of_elements, elem_of_difference. split.
        - rewrite <- Hdn. apply elem_of_dom. by eexists.
        - by apply not_elem_of_dom. }
      exists n. split; [|done].
      destruct (Happ n Hin) as [Hns _]. by rewrite Hd32, (Hd21 n Hns).
Qed.

(** X18: however many records a client refresh removes, a reconciliation
    that starts (namespace bound, a non-empty collection of existing
    records, every polled row with its key) returns the collection; what
    is left of the old collection is a sublist of it, so no record is
    duplicated or reordered; every old record is either untouched or
    updated with the difference new minus old of its key; and the records
    appended after them are new objects, one for each key that is only in
    the new set. *)
Theorem list_clients_reconciles_within_bounds
    (G : gmap string gval) (fmts : list string) (c : loc) (w : world) :
  let argv := clients_argv w fmts in
  let news := parse (py_iter (stdout (tmux_bin (w_environ w) (w_calls w) argv))) fmts in
  let olds := list_at (w_heap w) c in
  let old_recs := records_at (w_heap w) c in
  let key p := dict_at (w_heap w) p !! "client_tty" in
  let out := list_clients tmux_bin G w in
  G !! "CLIENT_FORMATS" = Some (GStrList fmts) →
  _clients (w_self w) = Some c →
  olds ≠ [] →
  (∀ p, p ∈ olds → is_Some (h_dicts (w_heap w) !! p)) →
  (∀ d, d ∈ news → is_Some (d !! "client_tty")) →
  out.1 = Ok c ∧
  (∃ kept appended,
     list_at (w_heap out.2) c = kept ++ appended ∧
     kept `sublist_of` olds ∧
     length appended = size (dom (by_key news) ∖ dom (by_key old_recs)) ∧
     (∀ l, l ∈ appended → h_dicts (w_heap w) !! l = None) ∧
     (∀ d, d ∈ dict_at (w_heap out.2) <$> appended ↔
           ∃ k, by_key news !! k = Some d ∧ by_key old_recs !! k = None)) ∧
  (∀ p, p ∈ olds →
     dict_at (w_heap out.2) p = dict_at (w_heap w) p ∨
     ∃ n o, by_key news !! key p = Some n ∧
            by_key old_recs !! key p = Some o ∧
            dict_at (w_heap out.2) p
              = dict_update (dict_at (w_heap w) p) (dict_diff n o)).
Proof.
  intros argv news olds old_recs key out HG Hc Hne Hwf Hkeys.
  destruct (list_clients_reconcile_run G fmts c w HG Hc Hne Hwf Hkeys)
    as (ns & h1 & diff & Holds & Hl1 & Hsame & Hdisj & Hdiff & Hct & Hfinish).
  fold argv news olds old_recs out in Hdiff, Hct, Hfinish.
  set (deleted := dom (by_key old_recs) ∖ dom (by_key news)) in *.
  set (intersect := dom (by_key news) ∩ dom (by_key old_recs)) in *.
  destruct (sync_loop_keeps c deleted intersect diff (called w argv) Hct h1
              (length olds) 0 h1)
    as (h2 & Hloop & Hsub & _ & Hdicts & Hrest).
  { split; [done|]. split; [done|]. split; [by left | done]. }
  rewrite Holds in Hsub, Hrest.
  destruct (Hfinish h2 Hloop) as (appended & h3 & -> & Hl3 & Hd3 & Happ).
  { intros n Hn. apply Hrest. intros Ho. by apply (Hdisj n). }
  cbn [fst snd w_heap with_heap]. split; [done|]. split.
  - exists (list_at h2 c), appended. done.
  - intros p Hp.
    assert (dict_at h3 p = dict_at h2 p) as -> by (unfold dict_at; by rewrite Hd3).
    destruct (Hdicts p) as [Hun|[Hki Hpat]].
    + left. rewrite Hun. by apply Hsame.
    + right. rewrite (Hsame p Hp) in Hki, Hpat. fold (key p) in Hki, Hpat.
      pose proof Hki as Hki'.
      apply elem_of_intersection in Hki' as [Hk1 Hk2].
      apply elem_of_dom in Hk1 as [n Hn]. apply elem_of_dom in Hk2 as [o Ho].
      exists n, o. split; [done|]. split; [done|].
      rewrite Hpat. by rewrite (Hdiff _ Hki), Hn, Ho.
Qed.

(** In a list with distinct keys, the record found under the key of an
    element is that element. *)
Lemma by_key_lookup_NoDup ds d :
  NoDup ((λ x : gmap string string, x !! "client_tty") <$> ds) →
  d ∈ ds → by_key ds !! (d !! "client_tty") = Some d.
Proof.
  intros Hnd Hin. destruct (by_key ds !! (d !! "client_tty")) as [d'|] eqn:E.
  - apply by_key_lookup in E as [Hk Hin'].
    apply list_elem_of_lookup in Hin as [i Hi].
    apply list_elem_of_lookup in Hin' as [j Hj].
    assert (i = j) as ->.
    { eapply (NoDup_lookup _ _ _ (d !! "client_tty") Hnd);
        rewrite list_lookup_fmap; [by rewrite Hi | rewrite Hj; simpl; by f_equal]. }
    congruence.
  - exfalso. apply not_elem_of_dom in E. apply E, by_key_dom. by exists d.
Qed.

(** X19: when the records of the collection have distinct keys, the
    reconciliation is exactly an iteration that steps over the element
    after each removal: the collection ends as [sweep] of the old one
    followed by the appended records; the records that iteration visits
    without removing are updated with what the new record of their key has
    and they have not; every other old record, stepped over or removed,
    keeps its content. *)
Theorem list_clients_steps_over_after_removal
    (G : gmap string gval) (fmts : list string) (c : loc) (w : world) :
  let argv := clients_argv w fmts in
  let news := parse (py_iter (stdout (tmux_bin (w_environ w) (w_calls w) argv))) fmts in
  let olds := list_at (w_heap w) c in
  let old_recs := records_at (w_heap w) c in
  let key p := dict_at (w_heap w) p !! "client_tty" in
  let gone p := bool_decide (key p ∉ dom (by_key news)) in
  let out := list_clients tmux_bin G w in
  G !! "CLIENT_FORMATS" = Some (GStrList fmts) →
  _clients (w_self w) = Some c →
  olds ≠ [] →
  (∀ p, p ∈ olds → is_Some (h_dicts (w_heap w) !! p)) →
  (∀ d, d ∈ news → is_Some (d !! "client_tty")) →
  NoDup (key <$> olds) →
  out.1 = Ok c ∧
  (∃ appended,
     list_at (w_heap out.2) c = sweep gone olds ++ appended ∧
     length appended = size (dom (by_key news) ∖ dom (by_key old_recs))) ∧
  (∀ p, p ∈ visited gone olds →
     ∃ n, by_key news !! key p = Some n ∧
          dict_at (w_heap out.2) p
            = dict_update (dict_at (w_heap w) p)
                (dict_diff n (dict_at (w_heap w) p))) ∧
  (∀ p, p ∈ olds → p ∉ visited gone olds →
     dict_at (w_heap out.2) p = dict_at (w_heap w) p).
Proof.
  intros argv news olds old_recs key gone out HG Hc Hne Hwf Hkeys Hnd.
  destruct (list_clients_reconcile_run G fmts c w HG Hc Hne Hwf Hkeys)
    as (ns & h1 & diff & Holds & Hl1 & Hsame & Hdisj & Hdiff & Hct & Hfinish).
  fold argv news olds old_recs out in Hdiff, Hct, Hfinish.
  set (deleted := dom (by_key old_recs) ∖ dom (by_key news)) in *.
  set (intersect := dom (by_key news) ∩ dom (by_key old_recs)) in *.
  assert (∀ p, p ∈ olds → key p ∈ dom (by_key old_recs)) as Hkold.
  { intros p Hp. apply by_key_dom. exists (dict_at (w_heap w) p).
    split; [|done]. unfold old_recs, records_at. by apply list_elem_of_fmap_2. }
  destruct (sync_loop_sweeps c deleted intersect diff (called w argv) Hct
              gone key (length olds) olds [] h1)
    as (h2 & Hloop & Hl2 & _ & Hvis & Hrest).
  { done. }
  { done. }
  { done. }
  { intros p Hp. by rewrite (Hsame p Hp). }
  { intros p Hp. unfold gone. case_bool_decide as Hg.
    - unfold deleted, intersect. split.
      + apply elem_of_difference. split; [by apply Hkold | done].
      + intros [? _]%elem_of_intersection. done.
    - assert (key p ∈ dom (by_key news)) as Hin.
      { by destruct (decide (key p ∈ dom (by_key news))). }
      unfold deleted, intersect. split.
      + intros [_ ?]%elem_of_difference. done.
      + apply elem_of_intersection. split; [done | by apply Hkold]. }
  simpl in Hloop, Hl2.
  destruct (Hfinish h2 Hloop) as (appended & h3 & -> & Hl3 & Hd3 & Hlen & _).
  { intros n Hn. apply Hrest. intros Hv%visited_subseteq. by apply (Hdisj n). }
  cbn [fst snd w_heap with_heap]. split; [done|]. split.
  - exists appended. by rewrite Hl3, Hl2.
  - assert (∀ p, dict_at h3 p = dict_at h2 p) as Hd32.
    { intros p. unfold dict_at. by rewrite Hd3. }
    split.
    + intros p Hp.
      assert (p ∈ olds) as Hpo by (by eapply visited_subseteq).
      assert (gone p = false) as Hg.
      { clear -Hp. revert Hp. generalize olds. intros l.
        assert (∀ n l, length l ≤ n → p ∈ visited gone l → gone p = false) as H.
        { clear l. induction n as [|n IH]; intros l Hlen.
          - destruct l; [by intros ?%elem_of_nil | simpl in Hlen; lia].
          - destruct l as [|x rest]; [by intros ?%elem_of_nil|]. simpl.
            destruct (gone x) eqn:E.
            + destruct rest as [|y rest']; [by intros ?%elem_of_nil|].
              apply IH. simpl in Hlen. lia.
            + intros [->|Hp]%elem_of_cons; [done|].
              apply (IH rest); [simpl in Hlen; lia | done]. }
        by apply (H (length l)). }
      unfold gone in Hg. apply bool_decide_eq_false in Hg.
      assert (key p ∈ dom (by_key news)) as Hin.
      { by destruct (decide (key p ∈ dom (by_key news))). }
      pose proof Hin as Hin'. apply elem_of_dom in Hin' as [n Hn].
      exists n. split; [done|].
      rewrite Hd32, (Hvis p Hp), (Hsame p Hpo).
      assert (key p ∈ intersect) as Hki.
      { apply elem_of_intersection. split; [done | by apply Hkold]. }
      rewrite (Hdiff _ Hki), Hn.
      assert (by_key old_recs !! key p = Some (dict_at (w_heap w) p)) as ->.
      { apply by_key_lookup_NoDup.
        - unfold old_recs, records_at. rewrite <- list_fmap_compose. exact Hnd.
        - unfold old_recs, records_at. by apply list_elem_of_fmap_2. }
      done.
    + intros p Hp Hnv. rewrite Hd32. unfold dict_at at 1.
      rewrite (Hrest p Hnv). fold (dict_at h1 p). by apply Hsame.
Qed.

End ReconciledClients.

(** ** Instances *)

(** A session row with one column too many. *)
Lemma parse_line_ignores_extra_columns_witness :
  length session_fields ≤ length (split tab (row "work" "$1")) ∧
  parse [row "work" "$1" +:+ TAB +:+ "zsh"] session_fields
    = parse [row "work" "$1"] session_fields.
Proof.
  split; [compute_done|].
  apply (parse_line_ignores_extra_columns session_fields (row "work" "$1") "zsh").
  compute_done.
Defined.

(** The second column of a joined session row. *)
Lemma parse_line_of_joined_row_witness :
  parse_line session_fields (join TAB ["work"; "$1"]) !! "session_id"
    = if decide ("$1" = "") then None else Some "$1".
Proof.
  apply (parse_line_of_joined_row session_fields ["work"; "$1"] 1).
  - compute_done.
  - repeat apply Forall_cons_2; [| |apply Forall_nil_2]; simpl;
      intuition discriminate.
  - reflexivity.
  - reflexivity.
Defined.

(** A server with all three connection attributes. *)
Lemma Server_tmux_puts_flags_first_witness :
  w_calls (Server_tmux two_polls ["kill-server"] configured_world).2
    = [["-ftmux.conf"; "-S/tmp/tmux.sock"; "-Lwork"; "kill-server"]].
Proof.
  pose proof (Server_tmux_puts_flags_first two_polls
                "work" "/tmp/tmux.sock" "tmux.conf" ∅ ["kill-server"]) as H.
  destruct H as [H _]; [done..|]. cbv zeta in H.
  change (Server_init (Some "work") (Some "/tmp/tmux.sock") (Some "tmux.conf") ∅)
    with configured_world in H.
  rewrite H. compute_done.
Defined.

(** Two reads of [sessions] on a process that lists one session, then two
    others. *)
Lemma sessions_hands_out_the_live_list_witness :
  let w1 := (sessions session_fields two_polls plain_world).2 in
  let w2 := (sessions session_fields two_polls w1).2 in
  (sessions session_fields two_polls plain_world).1 = Ok 3%positive ∧
  (sessions session_fields two_polls w1).1 = Ok 3%positive ∧
  records_at (w_heap w2) 3%positive
    = parse [row "mail" "$2"; row "logs" "$3"] session_fields.
Proof.
  cbv zeta.
  pose proof (sessions_hands_out_the_live_list
                session_fields two_polls plain_world) as H.
  cbv zeta in H. destruct H as (H1 & H2 & _ & H4); [compute_done..|].
  split; [exact H1|]. split; [exact H2|]. exact H4.
Defined.



(** A create subcommand that prints nothing, from inside a tmux session. *)
Lemma new_session_empty_output_raises_index_error_witness :
  let out := new_session session_fields (creating [])
               server_py_globals "foo" false false nested_world in
  out.1 = Raise IndexError ∧
  w_environ out.2 !! "TMUX" = None.
Proof.
  cbv zeta.
  pose proof (new_session_empty_output_raises_index_error
                session_fields (creating []) server_py_globals
                "foo" false false nested_world) as H.
  cbv zeta in H. destruct H as (H1 & _ & _ & _ & H5); [compute_done..|].
  split; [exact H1|]. apply H5. compute_done.
Defined.

(** Two rows of the same terminal polled into an empty collection. *)
Lemma list_clients_fills_empty_collection_witness :
  let out := list_clients (polling [row "/dev/ttys1" "80"; row "/dev/ttys1" "100"])
               globals_with_client_formats (client_world []) in
  out.1 = Ok 4%positive ∧
  records_at (w_heap out.2) 4%positive
    = parse [row "/dev/ttys1" "80"; row "/dev/ttys1" "100"] client_fields.
Proof.
  cbv zeta.
  pose proof (list_clients_fills_empty_collection
                (polling [row "/dev/ttys1" "80"; row "/dev/ttys1" "100"])
                globals_with_client_formats client_fields 4%positive
                (client_world [])) as H.
  cbv zeta in H. destruct H as (H1 & _ & H3 & _).
  - compute_done.
  - compute_done.
  - compute_done.
  - apply Forall_forall. compute_done.
  - split; [exact H1 | exact H3].
Defined.

(** A row without its terminal between two rows that have one, polled into
    an empty collection. *)
Lemma list_clients_keyless_row_leaves_partial_update_witness :
  let out := list_clients
               (polling [row "/dev/ttys1" "80"; row "" "80"; row "/dev/ttys3" "120"])
               globals_with_client_formats (client_world []) in
  out.1 = Raise (KeyError "client_tty") ∧
  records_at (w_heap out.2) 4%positive = [client_A].
Proof.
  cbv zeta.
  apply (list_clients_keyless_row_leaves_partial_update
           (polling [row "/dev/ttys1" "80"; row "" "80"; row "/dev/ttys3" "120"])
           globals_with_client_formats client_fields 4%positive
           (client_world []) [client_A] [client_C] {[ "w" := "80" ]}).
  - compute_done.
  - compute_done.
  - compute_done.
  - compute_done.
  - apply Forall_forall. compute_done.
  - compute_done.
Defined.

(** The same row polled into a collection of one record. *)
Lemma list_clients_keyless_row_leaves_collection_witness :
  let w := client_world [client_A] in
  let out := list_clients (polling [row "" "80"])
               globals_with_client_formats w in
  out.1 = Raise (KeyError "client_tty") ∧
  h_lists (w_heap out.2) = h_lists (w_heap w).
Proof.
  cbv zeta.
  pose proof (list_clients_keyless_row_leaves_collection
                (polling [row "" "80"])
                globals_with_client_formats client_fields 4%positive
                (client_world [client_A]) {[ "w" := "80" ]}) as H.
  cbv zeta in H. destruct H as (H1 & H2 & _).
  - compute_done.
  - compute_done.
  - compute_done.
  - apply list_elem_of_here.
  - compute_done.
  - split; [exact H1 | exact H2].
Defined.

(** Three clients of which the first two are gone, and a changed third. *)
Lemma list_clients_reconciles_within_bounds_witness :
  let w := client_world [client_A; client_B; client_C] in
  let out := list_clients (polling [row "/dev/ttys3" "100"])
               globals_with_client_formats w in
  _clients (w_self w) = Some 4%positive ∧
  out.1 = Ok 4%positive.
Proof.
  cbv zeta. split; [compute_done|].
  pose proof (list_clients_reconciles_within_bounds
                (polling [row "/dev/ttys3" "100"])
                globals_with_client_formats client_fields 4%positive
                (client_world [client_A; client_B; client_C])) as H.
  cbv zeta in H. destruct H as (H1 & _).
  - compute_done.
  - compute_done.
  - compute_done.
  - apply Forall_forall. compute_done.
  - apply Forall_forall. compute_done.
  - exact H1.
Defined.

(** Two clients that are both gone: the second is stepped over. *)
Lemma list_clients_steps_over_after_removal_witness :
  let w := client_world [client_A; client_B] in
  let out := list_clients (polling [row "/dev/ttys3" "120"])
               globals_with_client_formats w in
  list_at (w_heap w) 4%positive = [1%positive; 2%positive] ∧
  out.1 = Ok 4%positive ∧
  ∃ appended,
    list_at (w_heap out.2) 4%positive = 2%positive :: appended ∧
    length appended = 1.
Proof.
  cbv zeta. split; [compute_done|].
  pose proof (list_clients_steps_over_after_removal
                (polling [row "/dev/ttys3" "120"])
                globals_with_client_formats client_fields 4%positive
                (client_world [client_A; client_B])) as H.
  cbv zeta in H. destruct H as (H1 & (appended & H2 & H3) & _).
  - compute_done.
  - compute_done.
  - compute_done.
  - apply Forall_forall. compute_done.
  - apply Forall_forall. compute_done.
  - compute_done.
  - split; [exact H1|]. exists appended. split.
    + rewrite H2. f_equal.
    + etrans; [exact H3|]. compute_done.
Defined.
